(** * Verification model of [main.py] (LLM adapter with failover and the
      single-round function-calling agent).

    Python strings are modelled as byte strings ([String.string]) holding
    the UTF-8 text of the source; [str.lower] and [str.strip] act on the
    ASCII range (which is where every marker and keyword of the program
    lives).  Network effects are an oracle [net] that decides the outcome of
    every request from the history of events recorded so far, so every
    sequence of backend behaviours is covered. *)

From Stdlib Require Import String Ascii List ZArith Bool Lia.
Import ListNotations.
Local Open Scope list_scope.
Local Open Scope string_scope.

(* ------------------------------------------------------------------ *)
(** ** Python [str] operations *)

Definition ascii_lower (c : ascii) : ascii :=
  let n := nat_of_ascii c in
  if (65 <=? n)%nat && (n <=? 90)%nat then ascii_of_nat (n + 32) else c.

(** [s.lower()] *)
Fixpoint py_lower (s : string) : string :=
  match s with
  | EmptyString => EmptyString
  | String c s' => String (ascii_lower c) (py_lower s')
  end.

Fixpoint starts_with (p s : string) : bool :=
  match p, s with
  | EmptyString, _ => true
  | String a p', String b s' => Ascii.eqb a b && starts_with p' s'
  | String _ _, EmptyString => false
  end.

(** [sub in s] *)
Fixpoint py_in (sub s : string) : bool :=
  starts_with sub s ||
  match s with
  | EmptyString => false
  | String _ s' => py_in sub s'
  end.

Fixpoint str_drop (n : nat) (s : string) : string :=
  match n, s with
  | O, _ => s
  | S n', String _ s' => str_drop n' s'
  | S _, EmptyString => EmptyString
  end.

(** [s.split(sep)] for a non-empty [sep]; [fuel] bounds the scan. *)
Fixpoint split_aux (fuel : nat) (sep s : string) : list string :=
  match fuel with
  | O => [s]
  | S f =>
      match s with
      | EmptyString => [EmptyString]
      | String c s' =>
          if starts_with sep s
          then EmptyString :: split_aux f sep (str_drop (String.length sep) s)
          else match split_aux f sep s' with
               | [] => [String c EmptyString]
               | p :: ps => String c p :: ps
               end
      end
  end.

Definition py_split (sep s : string) : list string :=
  split_aux (S (String.length s)) sep s.

(** [sep.join(pieces)] *)
Fixpoint py_join (sep : string) (l : list string) : string :=
  match l with
  | [] => EmptyString
  | [p] => p
  | p :: ps => p ++ sep ++ py_join sep ps
  end.

(** [str.isspace] on the text's UTF-8 bytes.  The one-byte spaces:
    \t \n \v \f \r, \x1c-\x1f and space. *)
Definition py_isspace (c : ascii) : bool :=
  let n := nat_of_ascii c in
  ((9 <=? n)%nat && (n <=? 13)%nat) || ((28 <=? n)%nat && (n <=? 32)%nat).

(** The two-byte spaces: U+0085 and U+00A0 (C2 85, C2 A0). *)
Definition utf8_space2 (a b : ascii) : bool :=
  (nat_of_ascii a =? 194)%nat && ((nat_of_ascii b =? 133)%nat || (nat_of_ascii b =? 160)%nat).

(** The three-byte spaces: U+1680 (E1 9A 80), U+2000-U+200A (E2 80 80-8A),
    U+2028, U+2029, U+202F (E2 80 A8, A9, AF), U+205F (E2 81 9F) and
    U+3000 (E3 80 80). *)
Definition utf8_space3 (a b c : ascii) : bool :=
  let x := nat_of_ascii a in
  let y := nat_of_ascii b in
  let z := nat_of_ascii c in
  ((Nat.eqb x 225 && Nat.eqb y 154 && Nat.eqb z 128)
   || (Nat.eqb x 226 && Nat.eqb y 128
       && ((Nat.leb 128 z && Nat.leb z 138) || Nat.eqb z 168 || Nat.eqb z 169 || Nat.eqb z 175))
   || (Nat.eqb x 226 && Nat.eqb y 129 && Nat.eqb z 159)
   || (Nat.eqb x 227 && Nat.eqb y 128 && Nat.eqb z 128))%bool.

(** [s.lstrip()]: drops leading whitespace characters. *)
Fixpoint py_lstrip (s : string) : string :=
  match s with
  | EmptyString => EmptyString
  | String a s1 =>
      if py_isspace a then py_lstrip s1
      else match s1 with
           | String b s2 =>
               if utf8_space2 a b then py_lstrip s2
               else match s2 with
                    | String c s3 => if utf8_space3 a b c then py_lstrip s3 else s
                    | EmptyString => s
                    end
           | EmptyString => s
           end
  end.

(** [py_lstrip] on a reversed text, where each character's bytes come
    last byte first. *)
Fixpoint lstrip_rev (s : string) : string :=
  match s with
  | EmptyString => EmptyString
  | String a s1 =>
      if py_isspace a then lstrip_rev s1
      else match s1 with
           | String b s2 =>
               if utf8_space2 b a then lstrip_rev s2
               else match s2 with
                    | String c s3 => if utf8_space3 c b a then lstrip_rev s3 else s
                    | EmptyString => s
                    end
           | EmptyString => s
           end
  end.

Definition str_rev (s : string) : string :=
  string_of_list_ascii (rev (list_ascii_of_string s)).

(** [s.strip()]: [lstrip], then the trailing whitespace (stripping the
    reversed text). *)
Definition py_strip (s : string) : string :=
  str_rev (lstrip_rev (str_rev (py_lstrip s))).

Definition nl : string := String (ascii_of_nat 10) EmptyString.
Definition dquote : ascii := ascii_of_nat 34.
Definition backslash : ascii := ascii_of_nat 92.

(** Writes a literal with [']' standing for the double quote character. *)
Fixpoint dq (s : string) : string :=
  match s with
  | EmptyString => EmptyString
  | String c s' =>
      String (if Ascii.eqb c (ascii_of_nat 39) then dquote else c) (dq s')
  end.

(* ------------------------------------------------------------------ *)
(** ** JSON values ([json.loads] / [json.dumps])

    Numbers are integers; JSON text with a fraction, an exponent, a
    [\u] escape or the NaN/Infinity extensions is not decoded by
    [json_decode] (Python would decode it).  The parser of the agent is
    defined over an arbitrary decoder, so its general theorems hold for
    [json.loads] itself; [json_decode] is used on concrete inputs only,
    all of which lie in the decoded subset. *)

Local Set Warnings "-register-all".

Inductive json : Type :=
| JNull
| JBool (b : bool)
| JNum (n : Z)
| JStr (s : string)
| JArr (l : list json)
| JObj (kvs : list (string * json)).

(** Python truthiness of a decoded value. *)
Definition json_truthy (v : json) : bool :=
  match v with
  | JNull => false
  | JBool b => b
  | JNum n => negb (Z.eqb n 0)
  | JStr s => negb (String.eqb s EmptyString)
  | JArr l => match l with [] => false | _ => true end
  | JObj kvs => match kvs with [] => false | _ => true end
  end.

(** [d.get(k)] on a dict. *)
Fixpoint obj_get (k : string) (kvs : list (string * json)) : option json :=
  match kvs with
  | [] => None
  | (k', v) :: rest => if String.eqb k k' then Some v else obj_get k rest
  end.

(** [d[k] = v]: an existing key keeps its position and takes the new value. *)
Fixpoint obj_set (k : string) (v : json) (kvs : list (string * json))
  : list (string * json) :=
  match kvs with
  | [] => [(k, v)]
  | (k', v') :: rest =>
      if String.eqb k k' then (k, v) :: rest else (k', v') :: obj_set k v rest
  end.

Definition is_json_ws (c : ascii) : bool :=
  let n := nat_of_ascii c in
  (n =? 32)%nat || (n =? 9)%nat || (n =? 10)%nat || (n =? 13)%nat.

Fixpoint skip_ws (l : list ascii) : list ascii :=
  match l with
  | c :: l' => if is_json_ws c then skip_ws l' else l
  | [] => []
  end.

Definition is_digit (c : ascii) : bool :=
  let n := nat_of_ascii c in (48 <=? n)%nat && (n <=? 57)%nat.

Definition digit_val (c : ascii) : Z := Z.of_nat (nat_of_ascii c - 48).

Definition chr (n : nat) : ascii := ascii_of_nat n.

Definition unescape (c : ascii) : option ascii :=
  match nat_of_ascii c with
  | 34 => Some dquote | 92 => Some backslash | 47 => Some (chr 47)
  | 98 => Some (chr 8) | 102 => Some (chr 12) | 110 => Some (chr 10)
  | 114 => Some (chr 13) | 116 => Some (chr 9)
  | _ => None
  end.

(** Body of a string literal, after its opening quote. *)
Fixpoint parse_str (l : list ascii) (acc : list ascii)
  : option (string * list ascii) :=
  match l with
  | [] => None
  | c :: l' =>
      if Ascii.eqb c dquote then Some (string_of_list_ascii (rev acc), l')
      else if Ascii.eqb c backslash then
        match l' with
        | e :: l'' =>
            match unescape e with
            | Some d => parse_str l'' (d :: acc)
            | None => None
            end
        | [] => None
        end
      else if (nat_of_ascii c <? 32)%nat then None
      else parse_str l' (c :: acc)
  end.

Fixpoint parse_digits (l : list ascii) (acc : Z) : Z * list ascii :=
  match l with
  | c :: l' => if is_digit c then parse_digits l' (10 * acc + digit_val c)%Z else (acc, l)
  | [] => (acc, [])
  end.

Definition frac_or_exp (l : list ascii) : bool :=
  match l with
  | c :: _ => let n := nat_of_ascii c in (n =? 46)%nat || (n =? 101)%nat || (n =? 69)%nat
  | [] => false
  end.

Definition parse_number (l : list ascii) : option (json * list ascii) :=
  let '(sign, l1) :=
    match l with
    | c :: r => if Ascii.eqb c (chr 45) then ((-1)%Z, r) else (1%Z, l)
    | [] => (1%Z, l)
    end in
  match l1 with
  | c :: r =>
      if Ascii.eqb c (chr 48) then
        if frac_or_exp r then None else Some (JNum 0, r)
      else if is_digit c then
        let '(n, r') := parse_digits r (digit_val c) in
        if frac_or_exp r' then None else Some (JNum (sign * n)%Z, r')
      else None
  | [] => None
  end.

Fixpoint lit_prefix (p : list ascii) (l : list ascii) : option (list ascii) :=
  match p, l with
  | [], _ => Some l
  | a :: p', b :: l' => if Ascii.eqb a b then lit_prefix p' l' else None
  | _ :: _, [] => None
  end.

Fixpoint parse_value (fuel : nat) (l : list ascii) : option (json * list ascii) :=
  match fuel with
  | O => None
  | S f =>
      match skip_ws l with
      | [] => None
      | c :: r =>
          if Ascii.eqb c (chr 123) then
            match skip_ws r with
            | c' :: r' => if Ascii.eqb c' (chr 125) then Some (JObj [], r')
                          else parse_members f [] (skip_ws r)
            | [] => None
            end
          else if Ascii.eqb c (chr 91) then
            match skip_ws r with
            | c' :: r' => if Ascii.eqb c' (chr 93) then Some (JArr [], r')
                          else parse_elems f [] (skip_ws r)
            | [] => None
            end
          else if Ascii.eqb c dquote then
            match parse_str r [] with
            | Some (s, r') => Some (JStr s, r')
            | None => None
            end
          else
            match lit_prefix (list_ascii_of_string "null") (c :: r) with
            | Some r' => Some (JNull, r')
            | None =>
            match lit_prefix (list_ascii_of_string "true") (c :: r) with
            | Some r' => Some (JBool true, r')
            | None =>
            match lit_prefix (list_ascii_of_string "false") (c :: r) with
            | Some r' => Some (JBool false, r')
            | None => parse_number (c :: r)
            end end end
      end
  end
with parse_elems (fuel : nat) (acc : list json) (l : list ascii)
  : option (json * list ascii) :=
  match fuel with
  | O => None
  | S f =>
      match parse_value f l with
      | None => None
      | Some (v, r) =>
          match skip_ws r with
          | c :: r' =>
              if Ascii.eqb c (chr 44) then parse_elems f (acc ++ [v]) r'
              else if Ascii.eqb c (chr 93) then Some (JArr (acc ++ [v]), r')
              else None
          | [] => None
          end
      end
  end
with parse_members (fuel : nat) (acc : list (string * json)) (l : list ascii)
  : option (json * list ascii) :=
  match fuel with
  | O => None
  | S f =>
      match skip_ws l with
      | c :: r =>
          if Ascii.eqb c dquote then
            match parse_str r [] with
            | Some (k, r1) =>
                match skip_ws r1 with
                | c1 :: r2 =>
                    if Ascii.eqb c1 (chr 58) then
                      match parse_value f r2 with
                      | Some (v, r3) =>
                          match skip_ws r3 with
                          | c3 :: r4 =>
                              if Ascii.eqb c3 (chr 44) then parse_members f (obj_set k v acc) r4
                              else if Ascii.eqb c3 (chr 125) then Some (JObj (obj_set k v acc), r4)
                              else None
                          | [] => None
                          end
                      | None => None
                      end
                    else None
                | [] => None
                end
            | None => None
            end
          else None
      | [] => None
      end
  end.

(** [json.loads(s)]: [None] stands for a raised [JSONDecodeError]. *)
Definition json_decode (s : string) : option json :=
  let l := list_ascii_of_string s in
  match parse_value (S (List.length l)) l with
  | Some (v, r) => match skip_ws r with [] => Some v | _ => None end
  | None => None
  end.

Fixpoint z_digits (fuel : nat) (n : Z) (acc : string) : string :=
  match fuel with
  | O => acc
  | S f =>
      let acc' := String (chr (48 + Z.to_nat (n mod 10))) acc in
      if (n <? 10)%Z then acc' else z_digits f (n / 10)%Z acc'
  end.

(** [str(n)] of an int. *)
Definition z_to_string (n : Z) : string :=
  let m := Z.abs n in
  let digits := z_digits (S (Z.to_nat (Z.log2 m))) m EmptyString in
  if (n <? 0)%Z then "-" ++ digits else digits.

Definition hex_digit (n : nat) : ascii :=
  if (n <? 10)%nat then chr (48 + n) else chr (87 + n).

(** String escaping of [json.dumps(..., ensure_ascii=False)]. *)
Definition escape_char (c : ascii) : string :=
  let n := nat_of_ascii c in
  if Ascii.eqb c dquote then String backslash (String dquote EmptyString)
  else if Ascii.eqb c backslash then String backslash (String backslash EmptyString)
  else if (n =? 10)%nat then String backslash "n"
  else if (n =? 13)%nat then String backslash "r"
  else if (n =? 9)%nat then String backslash "t"
  else if (n =? 8)%nat then String backslash "b"
  else if (n =? 12)%nat then String backslash "f"
  else if (n <? 32)%nat then
    String backslash ("u00" ++ String (hex_digit (n / 16)) (String (hex_digit (n mod 16)) EmptyString))
  else String c EmptyString.

Fixpoint escape_str (s : string) : string :=
  match s with
  | EmptyString => EmptyString
  | String c s' => escape_char c ++ escape_str s'
  end.

Definition quoted (s : string) : string :=
  String dquote (escape_str s ++ String dquote EmptyString).

(** [json.dumps(v, ensure_ascii=False)] with the default separators. *)
Fixpoint json_dumps (v : json) : string :=
  match v with
  | JNull => "null"
  | JBool true => "true"
  | JBool false => "false"
  | JNum n => z_to_string n
  | JStr s => quoted s
  | JArr l => "[" ++ py_join ", " (map json_dumps l) ++ "]"
  | JObj kvs =>
      "{" ++ py_join ", " (map (fun '(k, x) => quoted k ++ ": " ++ json_dumps x) kvs) ++ "}"
  end.

(** [str(v)] for the hashable values a dict lookup accepts. *)
Definition py_str_scalar (v : json) : string :=
  match v with
  | JNull => "None"
  | JBool true => "True"
  | JBool false => "False"
  | JNum n => z_to_string n
  | JStr s => s
  | JArr _ | JObj _ => json_dumps v
  end.

(** Values usable as a dict key ([list] and [dict] are unhashable). *)
Definition json_hashable (v : json) : bool :=
  match v with
  | JArr _ | JObj _ => false
  | _ => true
  end.

Definition py_type_name (v : json) : string :=
  match v with
  | JNull => "NoneType" | JBool _ => "bool" | JNum _ => "int" | JStr _ => "str"
  | JArr _ => "list" | JObj _ => "dict"
  end.

(* ------------------------------------------------------------------ *)
(** ** Exceptions, results and the event trace *)

(** The exceptions the program raises or lets through.  [ProviderError]
    is any failure raised inside the try-block of a provider call (SDK or
    [requests] errors, HTTP status errors, a malformed response body). *)
Inductive exn : Type :=
| Exception (msg : string)
| TypeError (msg : string)
| AttributeError (msg : string)
| ProviderError (msg : string).

(** [str(e)] *)
Definition str_exn (e : exn) : string :=
  match e with
  | Exception m | TypeError m | AttributeError m | ProviderError m => m
  end.

Inductive result (A : Type) : Type :=
| Ok (a : A)
| Err (e : exn).
Arguments Ok {A} a.
Arguments Err {A} e.

Inductive api : Type := DeepSeek | Qwen.

(** Observable effects: one network request to a backend, one
    [time.sleep(secs)], one invocation of a registered tool function. *)
Inductive event : Type :=
| Request (p : api)
| Sleep (secs : Z)
| Invoke (fname : string).

Definition trace := list event.

Record message := mkMessage { role : string; content : string }.

(** [LLMConfig] of [config.py]. *)
Record LLMConfig := mkConfig {
  deepseek_api_key : string;
  deepseek_base_url : string;
  deepseek_model : string;
  qwen_api_key : string;
  qwen_base_url : string;
  qwen_model : string;
  timeout : Z;
  max_retries : Z }.

Definition default_config : LLMConfig :=
  mkConfig " " "https://api.deepseek.com" "deepseek-chat"
           " " "https://dashscope.aliyuncs.com/compatible-mode/v1/chat/completions"
           "qwen-plus" 30 2.

(** The backend: the outcome of the try-block of one attempt (request
    sent, response decoded), as a function of the provider, the messages
    and the events so far. *)
Definition network := api -> list message -> trace -> result string.

(* ------------------------------------------------------------------ *)
(** ** Provider clients: [_call_deepseek_api] and [_call_qwen_api]

    Both methods share one loop:
<<
        for attempt in range(self.config.max_retries):
            try:
                ... one request ...
                return content
            except Exception as e:
                if attempt < self.config.max_retries - 1:
                    time.sleep(2 ** attempt)
                    continue
                else:
                    raise e
        raise Exception(<exhausted message>)
>> *)

Section Providers.

Variable net : network.

(** [range(n)] *)
Definition py_range (n : Z) : list nat := seq 0 (Z.to_nat n).

Fixpoint retry_loop (p : api) (max_retries : Z) (exhausted : string)
    (messages : list message) (attempts : list nat) (tr : trace)
    : result string * trace :=
  match attempts with
  | [] => (Err (Exception exhausted), tr)
  | attempt :: rest =>
      let tr1 := (tr ++ [Request p])%list in
      match net p messages tr with
      | Ok content => (Ok content, tr1)
      | Err e =>
          if (Z.of_nat attempt <? max_retries - 1)%Z
          then retry_loop p max_retries exhausted messages rest
                 (tr1 ++ [Sleep (2 ^ Z.of_nat attempt)%Z])%list
          else (Err e, tr1)
      end
  end.

Definition deepseek_exhausted : string := "DeepSeek重试次数用尽".
Definition qwen_exhausted : string := "千问API重试次数用尽".

Definition call_deepseek_api (cfg : LLMConfig) (messages : list message) (tr : trace)
  : result string * trace :=
  retry_loop DeepSeek (max_retries cfg) deepseek_exhausted messages
    (py_range (max_retries cfg)) tr.

Definition call_qwen_api (cfg : LLMConfig) (messages : list message) (tr : trace)
  : result string * trace :=
  retry_loop Qwen (max_retries cfg) qwen_exhausted messages
    (py_range (max_retries cfg)) tr.

Definition call_api (p : api) : LLMConfig -> list message -> trace -> result string * trace :=
  match p with
  | DeepSeek => call_deepseek_api
  | Qwen => call_qwen_api
  end.

End Providers.

(* ------------------------------------------------------------------ *)
(** ** [LLMAdapter] *)

Record LLMAdapter := mkAdapter {
  config : LLMConfig;
  current_api : string;
  deepseek_available : bool;
  qwen_available : bool }.

Definition set_current (st : LLMAdapter) (name : string) : LLMAdapter :=
  mkAdapter (config st) name (deepseek_available st) (qwen_available st).
Definition set_deepseek_available (st : LLMAdapter) (b : bool) : LLMAdapter :=
  mkAdapter (config st) (current_api st) b (qwen_available st).
Definition set_qwen_available (st : LLMAdapter) (b : bool) : LLMAdapter :=
  mkAdapter (config st) (current_api st) (deepseek_available st) b.

(** Python truthiness of a [str]. *)
Definition py_truthy_str (s : string) : bool := negb (String.eqb s EmptyString).

Definition no_llm_api_msg : string := "没有可用的LLM API".
Definition no_current_api_msg : string := "当前没有可用的LLM API".

(** [LLMAdapter.__init__]; [openai_ok] is whether the [OpenAI(...)]
    constructor returns (true) or raises (false). *)
Definition LLMAdapter_init (openai_ok : bool) (cfg : LLMConfig) : result LLMAdapter :=
  let current_api0 := "auto" in
  let deepseek_av := if py_truthy_str (deepseek_api_key cfg) then openai_ok else false in
  let qwen_av := py_truthy_str (qwen_api_key cfg) in
  if String.eqb current_api0 "auto" then
    if deepseek_av then Ok (mkAdapter cfg "deepseek" deepseek_av qwen_av)
    else if qwen_av then Ok (mkAdapter cfg "qwen" deepseek_av qwen_av)
    else Err (Exception no_llm_api_msg)
  else Ok (mkAdapter cfg current_api0 deepseek_av qwen_av).

(** [LLMAdapter.set_api] *)
Definition set_api (st : LLMAdapter) (api_name : string) : bool * LLMAdapter :=
  if String.eqb api_name "deepseek" && deepseek_available st then
    (true, set_current st "deepseek")
  else if String.eqb api_name "qwen" && qwen_available st then
    (true, set_current st "qwen")
  else if String.eqb api_name "auto" then
    if deepseek_available st then (true, set_current st "deepseek")
    else if qwen_available st then (true, set_current st "qwen")
    else (false, st)
  else (false, st).

(** The rate-limit heuristic of [call_llm]. *)
Definition is_rate_limited (error_msg : string) : bool :=
  py_in "rate limit" error_msg || py_in "quota" error_msg ||
  py_in "exceeded" error_msg || py_in "429" error_msg.

Section Adapter.

Variable net : network.

(** [LLMAdapter.call_llm]: the result, the adapter after the call (its
    attributes are mutated in place, also when the call raises), the trace. *)
Definition call_llm (st : LLMAdapter) (messages : list message) (tr : trace)
  : result string * LLMAdapter * trace :=
  if String.eqb (current_api st) "deepseek" && deepseek_available st then
    match call_deepseek_api net (config st) messages tr with
    | (Ok r, tr1) => (Ok r, st, tr1)
    | (Err e, tr1) =>
        let error_msg := py_lower (str_exn e) in
        if is_rate_limited error_msg then
          let st1 := set_deepseek_available st false in
          if qwen_available st1 then
            let st2 := set_current st1 "qwen" in
            let '(r, tr2) := call_qwen_api net (config st2) messages tr1 in
            (r, st2, tr2)
          else (Err e, st1, tr1)
        else (Err e, st, tr1)
    end
  else if String.eqb (current_api st) "qwen" && qwen_available st then
    match call_qwen_api net (config st) messages tr with
    | (Ok r, tr1) => (Ok r, st, tr1)
    | (Err e, tr1) =>
        let error_msg := py_lower (str_exn e) in
        if is_rate_limited error_msg then
          let st1 := set_qwen_available st false in
          if deepseek_available st1 then
            let st2 := set_current st1 "deepseek" in
            let '(r, tr2) := call_deepseek_api net (config st2) messages tr1 in
            (r, st2, tr2)
          else (Err e, st1, tr1)
        else (Err e, st, tr1)
    end
  else (Err (Exception no_current_api_msg), st, tr).

End Adapter.

(* ------------------------------------------------------------------ *)
(** ** The tool registry: [get_weather], [AVAILABLE_FUNCTIONS] *)

Definition weather_data : list (string * json) :=
  [("beijing", JObj [("location", JStr "Beijing");
                     ("temperature", JObj [("current", JNum 32); ("low", JNum 26); ("high", JNum 35)]);
                     ("rain_probability", JNum 10);
                     ("humidity", JNum 40)]);
   ("shenzhen", JObj [("location", JStr "Shenzhen");
                      ("temperature", JObj [("current", JNum 28); ("low", JNum 24); ("high", JNum 31)]);
                      ("rain_probability", JNum 90);
                      ("humidity", JNum 85)])].

(** [get_weather(city)]; [city.lower()] fails on a non-[str] value. *)
Definition get_weather (city : json) : result string :=
  match city with
  | JStr c =>
      let city_key := py_lower c in
      match obj_get city_key weather_data with
      | Some d => Ok (json_dumps d)
      | None => Ok (json_dumps (JObj [("error", JStr "Weather Unavailable")]))
      end
  | v => Err (AttributeError ("'" ++ py_type_name v ++ "' object has no attribute 'lower'"))
  end.

(** A Python function: its name, its parameter names, its body on the
    bound arguments (in parameter order). *)
Record pyfunction := mkPyfunction {
  fn_name : string;
  fn_params : list string;
  fn_body : list json -> result string }.

Definition get_weather_fn : pyfunction :=
  mkPyfunction "get_weather" ["city"]
    (fun args => match args with [city] => get_weather city | _ => get_weather JNull end).

Definition AVAILABLE_FUNCTIONS : list (string * pyfunction) :=
  [("get_weather", get_weather_fn)].

Fixpoint fn_lookup (name : string) (fs : list (string * pyfunction)) : option pyfunction :=
  match fs with
  | [] => None
  | (n, f) :: rest => if String.eqb name n then Some f else fn_lookup name rest
  end.

(** Binding of the keyword arguments of a call [f( ** kwargs)]: an unexpected keyword is reported first,
    then a missing parameter. *)
Definition bind_kwargs (f : pyfunction) (kwargs : list (string * json)) : result (list json) :=
  match find (fun '(k, _) => negb (existsb (String.eqb k) (fn_params f))) kwargs with
  | Some (k, _) =>
      Err (TypeError (fn_name f ++ "() got an unexpected keyword argument '" ++ k ++ "'"))
  | None =>
      match find (fun p => match obj_get p kwargs with Some _ => false | None => true end)
                 (fn_params f) with
      | Some p =>
          Err (TypeError (fn_name f ++ "() missing 1 required positional argument: '" ++ p ++ "'"))
      | None =>
          Ok (map (fun p => match obj_get p kwargs with Some v => v | None => JNull end)
                  (fn_params f))
      end
  end.

Definition error_payload (msg : string) : string :=
  json_dumps (JObj [("error", JStr msg)]).

Definition unknown_function_msg (func_name : json) : string :=
  "未知函数: " ++ py_str_scalar func_name.

(** [FunctionCallingAgent._execute_function]: the payload, or the
    exception that escapes it; an [Invoke] event records the entry into
    the registered callable. *)
Definition execute_function (function_call : json) (tr : trace) : result string * trace :=
  match function_call with
  | JObj kvs =>
      let func_name := match obj_get "name" kvs with Some v => v | None => JNull end in
      let func_args := match obj_get "arguments" kvs with Some v => v | None => JObj [] end in
      if negb (json_hashable func_name) then
        (Err (TypeError ("unhashable type: '" ++ py_type_name func_name ++ "'")), tr)
      else
        match (match func_name with
               | JStr n => fn_lookup n AVAILABLE_FUNCTIONS
               | _ => None
               end) with
        | Some f =>
            match func_args with
            | JObj kwargs =>
                match bind_kwargs f kwargs with
                | Err e => (Ok (error_payload (str_exn e)), tr)
                | Ok vals =>
                    let tr1 := (tr ++ [Invoke (fn_name f)])%list in
                    match fn_body f vals with
                    | Ok r => (Ok r, tr1)
                    | Err e => (Ok (error_payload (str_exn e)), tr1)
                    end
                end
            | v =>
                (Ok (error_payload (fn_name f ++ "() argument after ** must be a mapping, not "
                                     ++ py_type_name v)), tr)
            end
        | None => (Ok (error_payload (unknown_function_msg func_name)), tr)
        end
  | v => (Err (AttributeError ("'" ++ py_type_name v ++ "' object has no attribute 'get'")), tr)
  end.

(* ------------------------------------------------------------------ *)
(** ** Prompts *)

Definition FUNCTION_DESCRIPTIONS : list json :=
  [JObj [("name", JStr "get_weather");
         ("description", JStr "获取指定城市的天气信息，包括温度、降雨概率和湿度");
         ("parameters",
           JObj [("type", JStr "object");
                 ("properties",
                   JObj [("city", JObj [("type", JStr "string");
                                        ("description", JStr "城市名称，如beijing或shenzhen")])]);
                 ("required", JArr [JStr "city"])])]].

Definition json_field_str (k : string) (v : json) : string :=
  match v with
  | JObj kvs => match obj_get k kvs with Some (JStr s) => s | Some x => json_dumps x | None => "" end
  | _ => ""
  end.

Definition json_field (k : string) (v : json) : json :=
  match v with
  | JObj kvs => match obj_get k kvs with Some x => x | None => JNull end
  | _ => JNull
  end.

(** [LLMAdapter._build_function_calling_prompt] *)
Definition build_function_calling_prompt (user_query : string) (functions : list json) : string :=
  let function_desc :=
    fold_left (fun acc func =>
                 acc ++ "- " ++ json_field_str "name" func ++ ": "
                     ++ json_field_str "description" func ++ nl
                     ++ "参数: " ++ json_dumps (json_field "parameters" func) ++ nl)
              functions ("可用函数:" ++ nl) in
  function_desc ++ nl ++ nl ++ "用户请求: " ++ user_query ++ nl ++ nl
  ++ "请分析用户需求，如果需要调用函数，请按以下格式回复：" ++ nl
  ++ dq "FUNCTION_CALL: {'name': '函数名', 'arguments': {'参数名': '参数值'}}" ++ nl ++ nl
  ++ "如果不需要调用函数，请直接回答用户问题。" ++ nl
  ++ "如果已经获得函数结果，请根据结果给出最终建议。" ++ nl ++ nl
  ++ "请一步步思考并回答。".

Definition follow_up_prompt (user_query : string) (function_call : json) (function_result : string)
  : string :=
  "之前的对话:" ++ nl ++ "用户请求: " ++ user_query ++ nl
  ++ "你决定调用函数: " ++ json_dumps function_call ++ nl
  ++ "函数返回结果: " ++ function_result ++ nl ++ nl
  ++ "现在请根据函数返回的结果，给出最终的建议回答。请用简洁的语言回答，直接给出有用的信息。".

Definition user_message (text : string) : message := mkMessage "user" text.

Definition apology_prefix : string := "抱歉，处理请求时出错: ".

Definition marker : string := "FUNCTION_CALL:".

(* ------------------------------------------------------------------ *)
(** ** [FunctionCallingAgent] *)

Section Agent.

(** [json.loads]: [None] is a raised [JSONDecodeError]. *)
Variable json_loads : string -> option json.
Variable net : network.

(** [FunctionCallingAgent._parse_function_call]; an [IndexError] or a
    decoding error inside the try-block gives [None]. *)
Definition parse_function_call (response : string) : option json :=
  if py_in marker response then
    match nth_error (py_split marker response) 1 with
    | None => None
    | Some part =>
        let func_call_str := py_strip part in
        match nth_error (py_split nl func_call_str) 0 with
        | None => None
        | Some line => json_loads (py_strip line)
        end
    end
  else None.

Definition opt_truthy (o : option json) : bool :=
  match o with Some v => json_truthy v | None => false end.

(** The try-block of [FunctionCallingAgent.process_query]. *)
Definition process_query_body (st : LLMAdapter) (user_query : string) (tr : trace)
  : result string * LLMAdapter * trace :=
  let initial_prompt := build_function_calling_prompt user_query FUNCTION_DESCRIPTIONS in
  let messages := [user_message initial_prompt] in
  match call_llm net st messages tr with
  | (Err e, st1, tr1) => (Err e, st1, tr1)
  | (Ok response, st1, tr1) =>
      let function_call := parse_function_call response in
      match function_call with
      | Some fc =>
          if json_truthy fc then
            match execute_function fc tr1 with
            | (Err e, tr2) => (Err e, st1, tr2)
            | (Ok function_result, tr2) =>
                let messages2 := [user_message (follow_up_prompt user_query fc function_result)] in
                call_llm net st1 messages2 tr2
            end
          else (Ok response, st1, tr1)
      | None => (Ok response, st1, tr1)
      end
  end.

(** [FunctionCallingAgent.process_query]: the except-clause turns every
    exception into the apology text. *)
Definition process_query (st : LLMAdapter) (user_query : string) (tr : trace)
  : string * LLMAdapter * trace :=
  match process_query_body st user_query tr with
  | (Ok r, st1, tr1) => (r, st1, tr1)
  | (Err e, st1, tr1) => (apology_prefix ++ str_exn e, st1, tr1)
  end.

End Agent.

(* ------------------------------------------------------------------ *)
(** ** [LLMAdapter.get_current_api_info] *)

Record api_info := mkApiInfo { info_name : string; info_model : string; info_available : bool }.

Definition get_current_api_info (st : LLMAdapter) : api_info :=
  if String.eqb (current_api st) "deepseek" then
    mkApiInfo "DeepSeek" (deepseek_model (config st)) (deepseek_available st)
  else if String.eqb (current_api st) "qwen" then
    mkApiInfo "千问" (qwen_model (config st)) (qwen_available st)
  else mkApiInfo "未知" "未知" false.

(* ------------------------------------------------------------------ *)
(** ** Menus of [main]: [show_menu], [show_api_menu]

    The printing is left out; the input lines are a list, and running out
    of them ([input()] raising [EOFError]) is [None]. *)

Definition menu_options (deepseek_available qwen_available : bool) : list (string * string) :=
  (if deepseek_available then [("1", "使用 DeepSeek API")] else [])
  ++ (if qwen_available then [("2", "使用 千问 API")] else [])
  ++ (if deepseek_available && qwen_available
      then [("3", "自动模式 (优先DeepSeek，失败时切换)")] else [])
  ++ [("exit", "退出程序")].

Definition api_menu_options (deepseek_available qwen_available : bool) : list (string * string) :=
  (if deepseek_available then [("1", "切换到 DeepSeek API")] else [])
  ++ (if qwen_available then [("2", "切换到 千问 API")] else [])
  ++ (if deepseek_available && qwen_available then [("3", "自动模式")] else [])
  ++ [("exit", "退出程序")].

(** The [while True] loop: the first line whose [strip().lower()] is a
    valid choice, with the lines not read yet. *)
Fixpoint read_choice (options : list (string * string)) (inputs : list string)
  : option (string * list string) :=
  match inputs with
  | [] => None
  | line :: rest =>
      let choice := py_lower (py_strip line) in
      let valid_choices := map (fun '(option, _) => py_lower option) options in
      if existsb (String.eqb choice) valid_choices then Some (choice, rest)
      else read_choice options rest
  end.

Definition show_menu (deepseek_available qwen_available : bool) (inputs : list string)
  : option (string * list string) :=
  read_choice (menu_options deepseek_available qwen_available) inputs.

Definition show_api_menu (deepseek_available qwen_available : bool) (inputs : list string)
  : option (string * list string) :=
  read_choice (api_menu_options deepseek_available qwen_available) inputs.

(** How [main] applies a menu choice other than ["exit"] (the same
    dispatch after [show_menu] and after [show_api_menu]). *)
Definition apply_menu_choice (st : LLMAdapter) (choice : string) : bool * LLMAdapter :=
  if String.eqb choice "1" then set_api st "deepseek"
  else if String.eqb choice "2" then set_api st "qwen"
  else set_api st "auto".

(* ------------------------------------------------------------------ *)
(** ** [main]

    The printing is left out.  [Finished] is the [break] on ["exit"]
    ([main] returns), [Exit0] is [sys.exit(0)] (a [SystemExit], which the
    [except Exception] clauses do not catch), [Exit1] is the outer
    handler's [sys.exit(1)]. *)

(** [config.load_config] *)
Definition load_config : LLMConfig := default_config.

Inductive exit_status := Finished | Exit0 | Exit1.

(** The outcome of a switch menu: [input()] ran out ([EOFError]),
    ["exit"] was chosen, or the loop goes on with an adapter and the
    lines left. *)
Inductive switch_result :=
| SwitchEOF
| SwitchExit
| Switched (st : LLMAdapter) (rest : list string).

(** The API switch menu of the loop: [show_api_menu] and its dispatch. *)
Definition api_switch (st : LLMAdapter) (inputs : list string) : switch_result :=
  match show_api_menu (deepseek_available st) (qwen_available st) inputs with
  | None => SwitchEOF
  | Some (api_choice, rest) =>
      if String.eqb api_choice "exit" then SwitchExit
      else Switched (snd (apply_menu_choice st api_choice)) rest
  end.

(** The operation menu after an answer ([1] continue, [2] switch API,
    [exit]). *)
Fixpoint op_loop (st : LLMAdapter) (inputs : list string) : switch_result :=
  match inputs with
  | [] => SwitchEOF
  | line :: rest =>
      let op_choice := py_lower (py_strip line) in
      if String.eqb op_choice "1" then Switched st rest
      else if String.eqb op_choice "2" then api_switch st rest
      else if String.eqb op_choice "exit" then SwitchExit
      else op_loop st rest
  end.

Section Main.

Variable json_loads : string -> option json.
Variable net : network.

(** The query loop of [main]; [asked] collects the queries handed to
    [process_query]; [fuel] bounds the iterations ([None] when it runs
    out; each iteration reads a line). *)
Fixpoint main_loop (fuel : nat) (st : LLMAdapter) (inputs : list string) (tr : trace)
    (asked : list string) : option (exit_status * LLMAdapter * trace * list string) :=
  match fuel with
  | O => None
  | S fuel' =>
      match inputs with
      | [] => Some (Exit1, st, tr, asked)
      | line :: rest =>
          let query := py_strip line in
          if String.eqb (py_lower query) "exit" then Some (Finished, st, tr, asked)
          else if String.eqb (py_lower query) "switch" then
            match api_switch st rest with
            | SwitchEOF => Some (Exit1, st, tr, asked)
            | SwitchExit => Some (Exit0, st, tr, asked)
            | Switched st1 rest1 => main_loop fuel' st1 rest1 tr asked
            end
          else if String.eqb query "" then main_loop fuel' st rest tr asked
          else
            let '(answer, st1, tr1) := process_query json_loads net st query tr in
            (* an [EOFError] of the operation menu is caught by the inner
               handler; the loop then reads the next query *)
            match op_loop st1 rest with
            | SwitchEOF => main_loop fuel' st1 [] tr1 (asked ++ [query])%list
            | SwitchExit => Some (Exit0, st1, tr1, (asked ++ [query])%list)
            | Switched st2 rest2 => main_loop fuel' st2 rest2 tr1 (asked ++ [query])%list
            end
      end
  end.

(** [main], on the lines typed in; [openai_ok] as in [LLMAdapter_init]. *)
Definition main (openai_ok : bool) (inputs : list string)
  : option (exit_status * option LLMAdapter * trace * list string) :=
  match LLMAdapter_init openai_ok load_config with
  | Err _ => Some (Exit1, None, [], [])
  | Ok st =>
      match show_menu (deepseek_available st) (qwen_available st) inputs with
      | None => Some (Exit1, Some st, [], [])
      | Some (choice, rest) =>
          if String.eqb choice "exit" then Some (Exit0, Some st, [], [])
          else
            match main_loop (S (List.length rest)) (snd (apply_menu_choice st choice)) rest [] [] with
            | None => None
            | Some (status, st1, tr, asked) => Some (status, Some st1, tr, asked)
            end
      end
  end.

End Main.

(* ------------------------------------------------------------------ *)
(** ** Vocabulary for the statements *)

Definition api_name (p : api) : string :=
  match p with DeepSeek => "deepseek" | Qwen => "qwen" end.

Definition other (p : api) : api :=
  match p with DeepSeek => Qwen | Qwen => DeepSeek end.

Definition available (st : LLMAdapter) (p : api) : bool :=
  match p with DeepSeek => deepseek_available st | Qwen => qwen_available st end.

Definition set_available (st : LLMAdapter) (p : api) (b : bool) : LLMAdapter :=
  match p with
  | DeepSeek => set_deepseek_available st b
  | Qwen => set_qwen_available st b
  end.

Definition exhausted_msg (p : api) : string :=
  match p with DeepSeek => deepseek_exhausted | Qwen => qwen_exhausted end.

(** The selection of [st] names a provider whose flag is set. *)
Definition selected_ok (st : LLMAdapter) : bool :=
  (String.eqb (current_api st) "deepseek" && deepseek_available st)
  || (String.eqb (current_api st) "qwen" && qwen_available st).

(** Attempt [i], then the backoff sleep after it, for [n] attempts from [k]. *)
Definition backoff_prefix (p : api) (k n : nat) : trace :=
  flat_map (fun i => [Request p; Sleep (2 ^ Z.of_nat i)%Z]) (seq k n).

Definition is_request (e : event) : bool :=
  match e with Request _ => true | _ => false end.

Definition count_requests (t : trace) : nat := List.length (filter is_request t).

(** A sequence of later [call_llm] calls. *)
Fixpoint call_many (net : network) (st : LLMAdapter) (ms : list (list message)) (tr : trace)
  : LLMAdapter * trace :=
  match ms with
  | [] => (st, tr)
  | m :: rest =>
      let '(_, st1, tr1) := call_llm net st m tr in call_many net st1 rest tr1
  end.

(** States reachable from construction through [set_api] and [call_llm],
    whatever the backends answer. *)
Inductive reachable : LLMAdapter -> Prop :=
| reach_init ok cfg st : LLMAdapter_init ok cfg = Ok st -> reachable st
| reach_set st name : reachable st -> reachable (snd (set_api st name))
| reach_call net st msgs tr : reachable st -> reachable (snd (fst (call_llm net st msgs tr))).

(** The selection invariant of the data model. *)
Definition selection_invariant (st : LLMAdapter) : bool :=
  selected_ok st || (negb (deepseek_available st) && negb (qwen_available st)).

(** A stub backend: answers [r1] to the first request, [r2] afterwards. *)
Definition stub (r1 r2 : string) : network :=
  fun _ _ t => if existsb is_request t then Ok r2 else Ok r1.

(* ------------------------------------------------------------------ *)
(** ** Provider client lemmas *)

Lemma call_api_unfold : forall p net cfg msgs tr,
  call_api net p cfg msgs tr =
  retry_loop net p (max_retries cfg) (exhausted_msg p) msgs (py_range (max_retries cfg)) tr.
Proof. destruct p; reflexivity. Qed.

Lemma backoff_prefix_succ : forall p k n,
  backoff_prefix p k (S n) = (Request p :: Sleep (2 ^ Z.of_nat k)%Z :: backoff_prefix p (S k) n)%list.
Proof. reflexivity. Qed.

Lemma retry_loop_always_fails : forall net p msgs exh m k tr,
  (forall t, exists e, net p msgs t = Err e) ->
  retry_loop net p (Z.of_nat (k + S m)) exh msgs (seq k (S m)) tr =
  (net p msgs (tr ++ backoff_prefix p k m)%list,
   (tr ++ backoff_prefix p k m ++ [Request p])%list).
Proof.
  intros net p msgs exh m. induction m as [|m IH]; intros k tr Hfail.
  - simpl. destruct (Hfail tr) as [e He]. rewrite He.
    replace (Z.of_nat k <? Z.of_nat (k + 1) - 1)%Z with false by (symmetry; apply Z.ltb_ge; lia).
    rewrite !app_nil_r, He. reflexivity.
  - change (seq k (S (S m))) with (k :: seq (S k) (S m)).
    cbn [retry_loop]. destruct (Hfail tr) as [e He]. rewrite He.
    replace (Z.of_nat k <? Z.of_nat (k + S (S m)) - 1)%Z with true by (symmetry; apply Z.ltb_lt; lia).
    replace (k + S (S m))%nat with (S k + S m)%nat by lia.
    rewrite IH by exact Hfail. rewrite backoff_prefix_succ.
    rewrite <- !app_assoc. reflexivity.
Qed.

Lemma retry_loop_requests : forall net p mr exh msgs attempts tr,
  exists suffix, snd (retry_loop net p mr exh msgs attempts tr) = (tr ++ suffix)%list
                 /\ count_requests suffix <= List.length attempts.
Proof.
  intros net p mr exh msgs attempts. induction attempts as [|a rest IH]; intros tr.
  - exists []. simpl. rewrite app_nil_r. split; [reflexivity | apply Nat.le_0_l].
  - cbn [retry_loop]. destruct (net p msgs tr) as [c|e].
    + exists [Request p]. simpl. split; [reflexivity | unfold count_requests; simpl; lia].
    + destruct (Z.of_nat a <? mr - 1)%Z.
      * destruct (IH ((tr ++ [Request p]) ++ [Sleep (2 ^ Z.of_nat a)%Z])%list) as [suf [Hs Hc]].
        exists (Request p :: Sleep (2 ^ Z.of_nat a)%Z :: suf)%list. rewrite Hs.
        rewrite <- !app_assoc. split; [reflexivity|].
        unfold count_requests in *. cbn [filter is_request List.length]. lia.
      * exists [Request p]. simpl. split; [reflexivity | unfold count_requests; simpl; lia].
Qed.

Lemma call_api_first_ok : forall p net cfg msgs tr r,
  (1 <= max_retries cfg)%Z -> net p msgs tr = Ok r ->
  call_api net p cfg msgs tr = (Ok r, (tr ++ [Request p])%list).
Proof.
  intros p net cfg msgs tr r Hm Hr. rewrite call_api_unfold. unfold py_range.
  destruct (Z.to_nat (max_retries cfg)) eqn:E; [lia|].
  simpl. rewrite Hr. reflexivity.
Qed.

(* ------------------------------------------------------------------ *)
(** ** Provider client: claims *)

Definition cfg_retries (n : Z) : LLMConfig :=
  mkConfig " " "https://api.deepseek.com" "deepseek-chat"
           " " "https://dashscope.aliyuncs.com/compatible-mode/v1/chat/completions"
           "qwen-plus" 30 n.

Definition always_failing (msg : string) : network := fun _ _ _ => Err (ProviderError msg).

Definition sample_messages : list message := [user_message "hi"].

(** C2 (counterexample): with [max_retries = 2] and a backend that always
    fails, [_call_deepseek_api] makes 2 requests with one sleep of 1 between
    them and then raises the backend's own failure, not the
    retries-exhausted exception. *)
Lemma deepseek_reraises_last_failure :
  call_deepseek_api (always_failing "Connection error.") (cfg_retries 2) sample_messages []
    = (Err (ProviderError "Connection error."), [Request DeepSeek; Sleep 1; Request DeepSeek])
  /\ fst (call_deepseek_api (always_failing "Connection error.") (cfg_retries 2) sample_messages [])
     <> Err (Exception deepseek_exhausted).
Proof. split; [reflexivity | simpl; discriminate]. Qed.

(** C2 (amended): for either provider client, the requests a call makes
    never exceed [max_retries]; when [max_retries = n+1] and every attempt
    fails, the client makes exactly [n+1] requests, sleeps [2^i] after
    attempt [i] for every [i < n] and not after the last one, and raises
    the failure of the last attempt itself. *)
Theorem complete_always_failing : forall net p cfg msgs tr n,
  max_retries cfg = Z.of_nat (S n) ->
  (forall t, exists e, net p msgs t = Err e) ->
  (forall net', exists suffix,
      snd (call_api net' p cfg msgs tr) = (tr ++ suffix)%list
      /\ count_requests suffix <= Z.to_nat (max_retries cfg))
  /\ call_api net p cfg msgs tr =
     (net p msgs (tr ++ backoff_prefix p 0 n)%list,
      (tr ++ backoff_prefix p 0 n ++ [Request p])%list).
Proof.
  intros net p cfg msgs tr n Hm Hfail. split.
  - intros net'. rewrite call_api_unfold.
    destruct (retry_loop_requests net' p (max_retries cfg) (exhausted_msg p) msgs
                (py_range (max_retries cfg)) tr) as [suf [Hs Hc]].
    exists suf. split; [exact Hs|]. unfold py_range in Hc. rewrite length_seq in Hc. exact Hc.
  - rewrite call_api_unfold, Hm. unfold py_range. rewrite Nat2Z.id.
    change (S n) with (0 + S n)%nat at 1. change (Z.of_nat (S n)) with (Z.of_nat (0 + S n)).
    apply retry_loop_always_fails. exact Hfail.
Qed.

Lemma complete_always_failing_witness :
  max_retries (cfg_retries 2) = Z.of_nat 2
  /\ (forall t, exists e, always_failing "quota exceeded" Qwen sample_messages t = Err e)
  /\ call_api (always_failing "quota exceeded") Qwen (cfg_retries 2) sample_messages [] =
     (always_failing "quota exceeded" Qwen sample_messages ([] ++ backoff_prefix Qwen 0 1)%list,
      ([] ++ backoff_prefix Qwen 0 1 ++ [Request Qwen])%list).
Proof.
  assert (Hm : max_retries (cfg_retries 2) = Z.of_nat 2) by reflexivity.
  assert (Hf : forall t, exists e, always_failing "quota exceeded" Qwen sample_messages t = Err e)
    by (intros t; eexists; reflexivity).
  split; [exact Hm|]. split; [exact Hf|].
  exact (proj2 (complete_always_failing (always_failing "quota exceeded") Qwen (cfg_retries 2)
                  sample_messages [] 1 Hm Hf)).
Defined.

(** C10: with [max_retries <= 0] a provider client makes no request and
    no sleep and raises its retries-exhausted exception. *)
Theorem complete_no_attempts : forall net p cfg msgs tr,
  (max_retries cfg <= 0)%Z ->
  call_api net p cfg msgs tr = (Err (Exception (exhausted_msg p)), tr).
Proof.
  intros net p cfg msgs tr Hm. rewrite call_api_unfold. unfold py_range.
  replace (Z.to_nat (max_retries cfg)) with 0%nat by lia. reflexivity.
Qed.

Lemma complete_no_attempts_witness :
  (max_retries (cfg_retries 0) <= 0)%Z
  /\ call_api (always_failing "x") DeepSeek (cfg_retries 0) sample_messages [Sleep 4] =
     (Err (Exception (exhausted_msg DeepSeek)), [Sleep 4]).
Proof.
  assert (H : (max_retries (cfg_retries 0) <= 0)%Z) by (simpl; lia).
  split; [exact H|].
  exact (complete_no_attempts (always_failing "x") DeepSeek (cfg_retries 0) sample_messages
           [Sleep 4] H).
Defined.

(* ------------------------------------------------------------------ *)
(** ** Adapter: claims *)

Lemma call_api_deepseek : forall net, call_api net DeepSeek = call_deepseek_api net.
Proof. reflexivity. Qed.
Lemma call_api_qwen : forall net, call_api net Qwen = call_qwen_api net.
Proof. reflexivity. Qed.

Lemma call_llm_keeps_switched : forall net st p msgs tr,
  current_api st = api_name (other p) -> available st p = false ->
  current_api (snd (fst (call_llm net st msgs tr))) = api_name (other p)
  /\ available (snd (fst (call_llm net st msgs tr))) p = false.
Proof.
  intros net st p msgs tr Hc Ha. unfold call_llm. rewrite Hc.
  destruct p; simpl in Ha |- *; rewrite Ha; simpl.
  - destruct (qwen_available st); simpl; [|rewrite Hc; auto].
    destruct (call_qwen_api net (config st) msgs tr) as [[r|e] tr1]; simpl; [rewrite Hc; auto|].
    destruct (is_rate_limited (py_lower (str_exn e))); simpl; rewrite Hc; auto.
  - destruct (deepseek_available st); simpl; [|rewrite Hc; auto].
    destruct (call_deepseek_api net (config st) msgs tr) as [[r|e] tr1]; simpl; [rewrite Hc; auto|].
    destruct (is_rate_limited (py_lower (str_exn e))); simpl; rewrite Hc; auto.
Qed.

Lemma call_many_keeps_switched : forall net ms st p tr,
  current_api st = api_name (other p) -> available st p = false ->
  current_api (fst (call_many net st ms tr)) = api_name (other p).
Proof.
  intros net ms. induction ms as [|m rest IH]; intros st p tr Hc Ha; [exact Hc|].
  simpl. destruct (call_llm_keeps_switched net st p m tr Hc Ha) as [Hc1 Ha1].
  destruct (call_llm net st m tr) as [[r st1] tr1]. simpl in Hc1, Ha1.
  exact (IH st1 p tr1 Hc1 Ha1).
Qed.

(** C1: when the selected provider's client call fails with a rate-limit
    signature, its flag is cleared; if the other provider is available the
    selection switches to it and its client is called exactly once on the
    trace left by the failed call, its result (success or failure) being
    the result of [call_llm]; otherwise the original failure is raised.
    After a switch no later call moves the selection back. *)
Theorem call_llm_rate_limit_failover : forall net st p msgs tr e tr1,
  current_api st = api_name p ->
  available st p = true ->
  call_api net p (config st) msgs tr = (Err e, tr1) ->
  is_rate_limited (py_lower (str_exn e)) = true ->
  let st' := set_current (set_available st p false) (api_name (other p)) in
  call_llm net st msgs tr =
    (if available st (other p)
     then (fst (call_api net (other p) (config st) msgs tr1), st',
           snd (call_api net (other p) (config st) msgs tr1))
     else (Err e, set_available st p false, tr1))
  /\ (available st (other p) = true ->
      forall net' ms tr', current_api (fst (call_many net' st' ms tr')) = api_name (other p)).
Proof.
  intros net st p msgs tr e tr1 Hc Ha Hcall Hrl st'. split.
  - unfold call_llm. rewrite Hc. destruct p; simpl in Ha, Hcall |- *; rewrite Ha; simpl.
    + rewrite Hcall, Hrl. simpl.
      destruct (qwen_available st); [|reflexivity].
      destruct (call_qwen_api net (config st) msgs tr1); reflexivity.
    + rewrite Hcall, Hrl. simpl.
      destruct (deepseek_available st); [|reflexivity].
      destruct (call_deepseek_api net (config st) msgs tr1); reflexivity.
  - intros Hother net' ms tr'. apply call_many_keeps_switched.
    + destruct p; reflexivity.
    + destruct p; reflexivity.
Qed.

Definition both_on : LLMAdapter := mkAdapter (cfg_retries 2) "deepseek" true true.

Definition rate_limited_deepseek : network :=
  fun p _ _ => match p with
               | DeepSeek => Err (ProviderError "Error code: 429 - Rate limit reached")
               | Qwen => Ok "fine"
               end.

Lemma call_llm_rate_limit_failover_witness :
  current_api both_on = api_name DeepSeek
  /\ available both_on DeepSeek = true
  /\ call_api rate_limited_deepseek DeepSeek (config both_on) sample_messages [] =
     (Err (ProviderError "Error code: 429 - Rate limit reached"),
      [Request DeepSeek; Sleep 1; Request DeepSeek])
  /\ is_rate_limited (py_lower "Error code: 429 - Rate limit reached") = true
  /\ call_llm rate_limited_deepseek both_on sample_messages [] =
     (Ok "fine", mkAdapter (cfg_retries 2) "qwen" false true,
      [Request DeepSeek; Sleep 1; Request DeepSeek; Request Qwen]).
Proof.
  assert (H1 : current_api both_on = api_name DeepSeek) by reflexivity.
  assert (H2 : available both_on DeepSeek = true) by reflexivity.
  assert (H3 : call_api rate_limited_deepseek DeepSeek (config both_on) sample_messages [] =
     (Err (ProviderError "Error code: 429 - Rate limit reached"),
      [Request DeepSeek; Sleep 1; Request DeepSeek])) by reflexivity.
  assert (H4 : is_rate_limited (py_lower (str_exn (ProviderError "Error code: 429 - Rate limit reached"))) = true)
    by reflexivity.
  split; [exact H1|]. split; [exact H2|]. split; [exact H3|]. split; [exact H4|].
  rewrite (proj1 (call_llm_rate_limit_failover rate_limited_deepseek both_on DeepSeek
                    sample_messages [] _ _ H1 H2 H3 H4)).
  reflexivity.
Defined.

(** C6: when the selection does not name an available provider (in
    particular when both flags are cleared), [call_llm] raises
    [Exception("当前没有可用的LLM API")], leaves the adapter as it was and
    makes no request. *)
Theorem call_llm_no_provider : forall net st msgs tr,
  (deepseek_available st = false /\ qwen_available st = false) \/ selected_ok st = false ->
  call_llm net st msgs tr = (Err (Exception no_current_api_msg), st, tr).
Proof.
  intros net st msgs tr H.
  assert (Hs : selected_ok st = false).
  { destruct H as [[Hd Hq] | Hs]; [|exact Hs].
    unfold selected_ok. rewrite Hd, Hq. rewrite !andb_false_r. reflexivity. }
  unfold selected_ok in Hs. apply orb_false_elim in Hs. destruct Hs as [Hd Hq].
  unfold call_llm. rewrite Hd, Hq. reflexivity.
Qed.

Lemma call_llm_no_provider_witness :
  ((deepseek_available (mkAdapter (cfg_retries 2) "qwen" false false) = false
    /\ qwen_available (mkAdapter (cfg_retries 2) "qwen" false false) = false)
   \/ selected_ok (mkAdapter (cfg_retries 2) "qwen" false false) = false)
  /\ call_llm rate_limited_deepseek (mkAdapter (cfg_retries 2) "qwen" false false) sample_messages [] =
     (Err (Exception no_current_api_msg), mkAdapter (cfg_retries 2) "qwen" false false, []).
Proof.
  assert (H : (deepseek_available (mkAdapter (cfg_retries 2) "qwen" false false) = false
    /\ qwen_available (mkAdapter (cfg_retries 2) "qwen" false false) = false)
   \/ selected_ok (mkAdapter (cfg_retries 2) "qwen" false false) = false)
    by (left; split; reflexivity).
  split; [exact H|].
  exact (call_llm_no_provider rate_limited_deepseek _ sample_messages [] H).
Defined.

(** C8: construction selects DeepSeek whenever its client is set up,
    otherwise Qwen when its key is set, and otherwise raises
    [Exception("没有可用的LLM API")]. *)
Theorem init_prefers_deepseek : forall openai_ok cfg,
  let ds := py_truthy_str (deepseek_api_key cfg) && openai_ok in
  let qw := py_truthy_str (qwen_api_key cfg) in
  match LLMAdapter_init openai_ok cfg with
  | Ok st =>
      deepseek_available st = ds /\ qwen_available st = qw /\ (ds || qw)%bool = true
      /\ current_api st = (if ds then "deepseek" else "qwen")
  | Err e => e = Exception no_llm_api_msg /\ ds = false /\ qw = false
  end.
Proof.
  intros openai_ok cfg ds qw. unfold LLMAdapter_init, ds, qw.
  destruct (py_truthy_str (deepseek_api_key cfg)); destruct openai_ok;
    destruct (py_truthy_str (qwen_api_key cfg)); simpl; repeat split.
Qed.

Lemma init_invariant : forall ok cfg st,
  LLMAdapter_init ok cfg = Ok st -> selection_invariant st = true.
Proof.
  intros ok cfg st H. unfold LLMAdapter_init in H.
  destruct (py_truthy_str (deepseek_api_key cfg)); destruct ok;
    destruct (py_truthy_str (qwen_api_key cfg)); simpl in H;
    try discriminate; injection H as <-; reflexivity.
Qed.

Lemma set_api_invariant : forall st name,
  selection_invariant st = true -> selection_invariant (snd (set_api st name)) = true.
Proof.
  intros st name H. unfold set_api.
  destruct (String.eqb name "deepseek"); destruct (deepseek_available st) eqn:Hd;
    destruct (String.eqb name "qwen"); destruct (qwen_available st) eqn:Hq;
    destruct (String.eqb name "auto");
    unfold selection_invariant, selected_ok, set_current in *; simpl in *;
    rewrite ?Hd, ?Hq in *; simpl in *; rewrite ?orb_true_r; auto.
Qed.

Ltac destruct_branches :=
  repeat match goal with
  | |- context [if ?b then _ else _] => destruct b eqn:?
  | |- context [match ?x with (_, _) => _ end] => destruct x eqn:?
  | |- context [match ?x with Ok _ => _ | Err _ => _ end] => destruct x eqn:?
  end.

Lemma call_llm_invariant : forall net st msgs tr,
  selection_invariant st = true -> selection_invariant (snd (fst (call_llm net st msgs tr))) = true.
Proof.
  intros net st msgs tr H. unfold call_llm.
  destruct_branches; simpl; try exact H;
    unfold selection_invariant, selected_ok in *; simpl in *;
    repeat match goal with
           | E : (_ && _)%bool = true |- _ => apply andb_true_iff in E; destruct E
           | E : (_ && _)%bool = false |- _ => apply andb_false_iff in E; destruct E
           end;
    repeat match goal with E : _ = _ |- _ => rewrite E in * end;
    simpl in *; rewrite ?andb_false_r; auto.
Qed.

(** C9: in every state reachable from construction through [set_api] and
    [call_llm] (whatever the backends answer), the selection names a
    provider whose flag is set, unless both flags are cleared. *)
Theorem reachable_selection_invariant : forall st,
  reachable st ->
  (current_api st = "deepseek" /\ deepseek_available st = true)
  \/ (current_api st = "qwen" /\ qwen_available st = true)
  \/ (deepseek_available st = false /\ qwen_available st = false).
Proof.
  intros st Hr.
  assert (Hi : selection_invariant st = true).
  { induction Hr as [ok cfg st H | st name Hr IH | net st msgs tr Hr IH].
    - exact (init_invariant ok cfg st H).
    - exact (set_api_invariant st name IH).
    - exact (call_llm_invariant net st msgs tr IH). }
  unfold selection_invariant, selected_ok in Hi.
  destruct (String.eqb (current_api st) "deepseek") eqn:Ed;
    [apply String.eqb_eq in Ed|];
    destruct (String.eqb (current_api st) "qwen") eqn:Eq;
    [apply String.eqb_eq in Eq| |apply String.eqb_eq in Eq|];
    destruct (deepseek_available st); destruct (qwen_available st); simpl in Hi;
    try discriminate; auto.
Qed.

Lemma reachable_selection_invariant_witness :
  reachable (snd (fst (call_llm rate_limited_deepseek both_on sample_messages [])))
  /\ ((current_api (snd (fst (call_llm rate_limited_deepseek both_on sample_messages []))) = "deepseek"
       /\ deepseek_available (snd (fst (call_llm rate_limited_deepseek both_on sample_messages []))) = true)
      \/ (current_api (snd (fst (call_llm rate_limited_deepseek both_on sample_messages []))) = "qwen"
          /\ qwen_available (snd (fst (call_llm rate_limited_deepseek both_on sample_messages []))) = true)
      \/ (deepseek_available (snd (fst (call_llm rate_limited_deepseek both_on sample_messages []))) = false
          /\ qwen_available (snd (fst (call_llm rate_limited_deepseek both_on sample_messages []))) = false)).
Proof.
  assert (H : reachable (snd (fst (call_llm rate_limited_deepseek both_on sample_messages [])))).
  { apply reach_call. apply (reach_init true (cfg_retries 2)). reflexivity. }
  split; [exact H|]. exact (reachable_selection_invariant _ H).
Defined.

(* ------------------------------------------------------------------ *)
(** ** [str.split] lemmas *)

Lemma str_append_nil_r : forall s, s ++ EmptyString = s.
Proof. induction s as [|c s IH]; simpl; [reflexivity|]. rewrite IH. reflexivity. Qed.

Lemma py_join_cons : forall sep p ps,
  py_join sep (p :: ps) = p ++ (match ps with [] => EmptyString | _ => sep ++ py_join sep ps end).
Proof. intros sep p [|q qs]; simpl; [rewrite str_append_nil_r|]; reflexivity. Qed.

Lemma starts_with_drop : forall p s,
  starts_with p s = true -> s = p ++ str_drop (String.length p) s.
Proof.
  induction p as [|a p IH]; intros s H; [reflexivity|].
  destruct s as [|b s]; [discriminate|]. simpl in H |- *.
  apply andb_true_iff in H. destruct H as [Hab H].
  apply Ascii.eqb_eq in Hab. subst b. f_equal. apply IH, H.
Qed.

Lemma starts_with_app : forall p u v,
  starts_with p u = true -> starts_with p (u ++ v) = true.
Proof.
  induction p as [|a p IH]; intros u v H; [reflexivity|].
  destruct u as [|b u]; [discriminate|]. simpl in H |- *.
  apply andb_true_iff in H. destruct H as [Hab H]. rewrite Hab. simpl. apply IH, H.
Qed.

Lemma starts_with_self : forall p v, starts_with p (p ++ v) = true.
Proof.
  induction p as [|a p IH]; intros v; [reflexivity|]. simpl. rewrite Ascii.eqb_refl. apply IH.
Qed.

Lemma str_drop_length : forall n s, String.length (str_drop n s) = String.length s - n.
Proof.
  induction n as [|n IH]; intros s; [simpl; lia|]. destruct s; simpl; [reflexivity|]. apply IH.
Qed.

Lemma split_aux_cons : forall f sep s, exists p ps, split_aux f sep s = p :: ps.
Proof.
  intros [|f] sep [|c s]; simpl; eauto.
  destruct (starts_with sep (String c s)); eauto.
  destruct (split_aux f sep s); eauto.
Qed.

Lemma split_aux_join : forall f sep s, py_join sep (split_aux f sep s) = s.
Proof.
  induction f as [|f IH]; intros sep s; [reflexivity|].
  destruct s as [|c s']; [reflexivity|]. cbn [split_aux].
  destruct (starts_with sep (String c s')) eqn:Hp.
  - destruct (split_aux_cons f sep (str_drop (String.length sep) (String c s'))) as [q [qs Hq]].
    rewrite py_join_cons, Hq, <- Hq, IH. simpl. symmetry. apply starts_with_drop, Hp.
  - destruct (split_aux f sep s') as [|p ps] eqn:Hs.
    + destruct (split_aux_cons f sep s') as [q [qs Hq]]. congruence.
    + specialize (IH sep s'). rewrite Hs in IH. rewrite py_join_cons in IH |- *.
      simpl. rewrite IH. reflexivity.
Qed.

Lemma py_in_empty : forall sep, sep <> EmptyString -> py_in sep EmptyString = false.
Proof. intros [|c s] H; [congruence|reflexivity]. Qed.

Lemma split_aux_no_sep : forall f sep s,
  sep <> EmptyString -> String.length s < f ->
  Forall (fun piece => py_in sep piece = false) (split_aux f sep s).
Proof.
  induction f as [|f IH]; intros sep s Hsep Hlen; [lia|].
  destruct s as [|c s']; cbn [split_aux].
  - constructor; [apply py_in_empty, Hsep | constructor].
  - destruct (starts_with sep (String c s')) eqn:Hp.
    + constructor; [apply py_in_empty, Hsep|]. apply IH; [exact Hsep|].
      rewrite str_drop_length. destruct sep; [congruence|]. simpl in *. lia.
    + assert (Hall := IH sep s' Hsep ltac:(simpl in Hlen; lia)).
      assert (Hj := split_aux_join f sep s').
      destruct (split_aux f sep s') as [|p ps] eqn:Hs.
      * destruct (split_aux_cons f sep s') as [q [qs Hq]]. congruence.
      * apply Forall_cons_iff in Hall. destruct Hall as [Hp0 Hps]. constructor; [|exact Hps].
        simpl. rewrite Hp0, orb_false_r.
        destruct (starts_with sep (String c p)) eqn:Hcp; [|reflexivity].
        rewrite py_join_cons in Hj.
        apply (starts_with_app _ _ (match ps with [] => EmptyString | _ => sep ++ py_join sep ps end))
          in Hcp.
        simpl in Hcp. rewrite Hj in Hcp. simpl in Hp. rewrite Hcp in Hp. discriminate.
Qed.

(** What [s.split(sep)] returns when [sep] occurs in [s]: the text before
    the first occurrence, the text up to the next one, and the rest. *)
Lemma py_split_occurs : forall sep s,
  sep <> EmptyString -> py_in sep s = true ->
  exists pre seg ps,
    py_split sep s = pre :: seg :: ps
    /\ s = pre ++ sep ++ seg ++ (match ps with [] => EmptyString | _ => sep ++ py_join sep ps end)
    /\ py_in sep pre = false /\ py_in sep seg = false.
Proof.
  intros sep s Hsep Hin. unfold py_split.
  assert (Hall := split_aux_no_sep (S (String.length s)) sep s Hsep ltac:(lia)).
  assert (Hj := split_aux_join (S (String.length s)) sep s).
  destruct (split_aux (S (String.length s)) sep s) as [|pre [|seg ps]] eqn:Hs.
  - destruct (split_aux_cons (S (String.length s)) sep s) as [q [qs Hq]]. congruence.
  - simpl in Hj. apply Forall_cons_iff in Hall. destruct Hall as [Hpre _].
    rewrite Hj in Hpre. congruence.
  - apply Forall_cons_iff in Hall. destruct Hall as [Hpre Hrest].
    apply Forall_cons_iff in Hrest. destruct Hrest as [Hseg _].
    exists pre, seg, ps. split; [reflexivity|]. split; [|auto].
    rewrite <- Hj, !py_join_cons. reflexivity.
Qed.

(** The first piece of [s.split(sep)] and what follows it. *)
Lemma py_split_first : forall sep s,
  sep <> EmptyString ->
  exists first rest ps,
    py_split sep s = first :: ps
    /\ s = first ++ rest /\ py_in sep first = false
    /\ (rest = EmptyString \/ starts_with sep rest = true).
Proof.
  intros sep s Hsep. unfold py_split.
  assert (Hall := split_aux_no_sep (S (String.length s)) sep s Hsep ltac:(lia)).
  assert (Hj := split_aux_join (S (String.length s)) sep s).
  destruct (split_aux_cons (S (String.length s)) sep s) as [first [ps Hq]].
  rewrite Hq in Hall, Hj. apply Forall_cons_iff in Hall. destruct Hall as [Hf _].
  exists first, (match ps with [] => EmptyString | _ => sep ++ py_join sep ps end), ps.
  split; [exact Hq|]. split; [rewrite <- Hj, py_join_cons; reflexivity|]. split; [exact Hf|].
  destruct ps; [left; reflexivity | right; apply starts_with_self].
Qed.

(* ------------------------------------------------------------------ *)
(** ** Function-call parser: claims *)

Lemma marker_nonempty : marker <> EmptyString.
Proof. discriminate. Qed.

Lemma nl_nonempty : nl <> EmptyString.
Proof. discriminate. Qed.

(** The example of the data model: text before the marker and the line
    after the call are ignored. *)
Example parse_function_call_example :
  parse_function_call json_decode
    (dq "hello FUNCTION_CALL: {'name':'get_weather','arguments':{'city':'beijing'}}" ++ nl ++ "extra")
  = Some (JObj [("name", JStr "get_weather"); ("arguments", JObj [("city", JStr "beijing")])]).
Proof. vm_compute. reflexivity. Qed.

(** [strip()] also drops Unicode whitespace: here U+3000 after the
    marker and U+00A0 at the end of the payload. *)
Example parse_function_call_unicode_space :
  parse_function_call json_decode
    ("FUNCTION_CALL:" ++ String (ascii_of_nat 227) (String (ascii_of_nat 128) (String (ascii_of_nat 128)
       (dq "{'name':'get_weather','arguments':{'city':'beijing'}}"
        ++ String (ascii_of_nat 194) (String (ascii_of_nat 160) EmptyString)))))
  = Some (JObj [("name", JStr "get_weather"); ("arguments", JObj [("city", JStr "beijing")])]).
Proof. vm_compute. reflexivity. Qed.

Example parse_function_call_prose :
  parse_function_call json_decode "I think you should wear a coat." = None.
Proof. vm_compute. reflexivity. Qed.

(** C3 (counterexample): a payload without a name is returned as a call,
    and a call on the line after the marker is found although the text
    up to the first line break after the marker is empty. *)
Lemma parse_function_call_no_field_check :
  parse_function_call json_decode (dq "FUNCTION_CALL: {'foo': 1}") = Some (JObj [("foo", JNum 1)])
  /\ parse_function_call json_decode
       ("FUNCTION_CALL:" ++ nl ++ dq "{'name': 'get_weather', 'arguments': {'city': 'beijing'}}")
     = Some (JObj [("name", JStr "get_weather"); ("arguments", JObj [("city", JStr "beijing")])]).
Proof. split; vm_compute; reflexivity. Qed.

(** C3 (amended): without the marker there is no call; with it, the
    payload is the text between the first marker and the next marker (or
    the end), stripped, cut at its first newline and stripped again.
    When the JSON decoder fails on the payload there is no call; when it
    yields an object, that object is the call as it is, with no check of
    its fields. *)
Theorem parse_function_call_payload : forall json_loads r,
  (py_in marker r = false -> parse_function_call json_loads r = None)
  /\ (py_in marker r = true ->
      exists pre seg tail line rest,
        r = pre ++ marker ++ seg ++ tail
        /\ py_in marker pre = false /\ py_in marker seg = false
        /\ (tail = EmptyString \/ starts_with marker tail = true)
        /\ py_strip seg = line ++ rest /\ py_in nl line = false
        /\ (rest = EmptyString \/ starts_with nl rest = true)
        /\ (json_loads (py_strip line) = None -> parse_function_call json_loads r = None)
        /\ (forall kvs, json_loads (py_strip line) = Some (JObj kvs) ->
            parse_function_call json_loads r = Some (JObj kvs))).
Proof.
  intros json_loads r. split.
  - intros H. unfold parse_function_call. rewrite H. reflexivity.
  - intros H.
    destruct (py_split_occurs marker r marker_nonempty H) as [pre [seg [ps [Hs [Hr [Hpre Hseg]]]]]].
    destruct (py_split_first nl (py_strip seg) nl_nonempty)
      as [line [rest [ls [Hl [Hstrip [Hline Hrest]]]]]].
    assert (Hp : parse_function_call json_loads r = json_loads (py_strip line)).
    { unfold parse_function_call. rewrite H, Hs. simpl. rewrite Hl. reflexivity. }
    exists pre, seg, (match ps with [] => EmptyString | _ => marker ++ py_join marker ps end),
      line, rest.
    repeat split; try assumption.
    + destruct ps; [left; reflexivity | right; apply starts_with_self].
    + intros Hn. rewrite Hp. exact Hn.
    + intros kvs Hk. rewrite Hp. exact Hk.
Qed.

(* ------------------------------------------------------------------ *)
(** ** Function execution: claims *)

Definition call_obj (name : string) (args : list (string * json)) : json :=
  JObj [("name", JStr name); ("arguments", JObj args)].

(** C7: for every function name and argument mapping [_execute_function]
    returns a payload: the callable's result, the JSON error object of a
    binding failure or of an exception of the callable, or the JSON error
    object naming an unknown function. *)
Theorem execute_function_soft : forall name args tr,
  fst (execute_function (call_obj name args) tr) =
  Ok (if String.eqb name "get_weather" then
        match bind_kwargs get_weather_fn args with
        | Err e => error_payload (str_exn e)
        | Ok vals => match fn_body get_weather_fn vals with
                     | Ok r => r
                     | Err e => error_payload (str_exn e)
                     end
        end
      else error_payload (unknown_function_msg (JStr name))).
Proof.
  intros name args tr. unfold execute_function, call_obj. simpl.
  destruct (String.eqb name "get_weather"); simpl; [|reflexivity].
  destruct (bind_kwargs get_weather_fn args); [|reflexivity].
  destruct_branches; reflexivity.
Qed.

Example execute_unknown_fn :
  execute_function (call_obj "unknown_fn" []) [] = (Ok (dq "{'error': '未知函数: unknown_fn'}"), []).
Proof. vm_compute. reflexivity. Qed.

Example execute_bad_argument :
  execute_function (call_obj "get_weather" [("town", JStr "x")]) [] =
  (Ok (dq "{'error': '" ++ "get_weather() got an unexpected keyword argument 'town'" ++ dq "'}"), []).
Proof. vm_compute. reflexivity. Qed.

(* ------------------------------------------------------------------ *)
(** ** Query agent: claims *)

(** C4: [process_query] always returns a text: the result of its
    try-block, or, when the try-block raises [e] (in the first or second
    adapter call or in the execution of the call), the apology followed by
    [str(e)]; in particular a failure of the first adapter call is turned
    into that apology. *)
Theorem process_query_never_raises : forall json_loads net st q tr,
  match process_query_body json_loads net st q tr with
  | (Ok r, st1, tr1) => process_query json_loads net st q tr = (r, st1, tr1)
  | (Err e, st1, tr1) =>
      process_query json_loads net st q tr = (apology_prefix ++ str_exn e, st1, tr1)
  end
  /\ (forall e st1 tr1,
        call_llm net st [user_message (build_function_calling_prompt q FUNCTION_DESCRIPTIONS)] tr
          = (Err e, st1, tr1) ->
        process_query json_loads net st q tr = (apology_prefix ++ str_exn e, st1, tr1)).
Proof.
  intros json_loads net st q tr. split.
  - unfold process_query. destruct (process_query_body json_loads net st q tr) as [[[r|e] st1] tr1];
      reflexivity.
  - intros e st1 tr1 H. unfold process_query, process_query_body. rewrite H. reflexivity.
Qed.

Lemma call_llm_selected_ok : forall net st p msgs tr r,
  current_api st = api_name p -> available st p = true -> (1 <= max_retries (config st))%Z ->
  net p msgs tr = Ok r ->
  call_llm net st msgs tr = (Ok r, st, (tr ++ [Request p])%list).
Proof.
  intros net st p msgs tr r Hc Ha Hm Hr.
  pose proof (call_api_first_ok p net (config st) msgs tr r Hm Hr) as Hcall.
  unfold call_llm. rewrite Hc. destruct p; simpl in Ha, Hcall |- *; rewrite Ha; simpl.
  - rewrite Hcall. reflexivity.
  - rewrite Hcall. reflexivity.
Qed.

Definition is_invoke (e : event) : bool :=
  match e with Invoke _ => true | _ => false end.

Ltac destruct_json_branches :=
  repeat match goal with
  | |- context [if ?b then _ else _] => destruct b eqn:?
  | |- context [match ?x with (_, _) => _ end] => destruct x eqn:?
  | |- context [match ?x with Ok _ => _ | Err _ => _ end] => destruct x eqn:?
  | |- context [match ?x with Some _ => _ | None => _ end] => destruct x eqn:?
  | |- context [match ?x with JNull => _ | JBool _ => _ | JNum _ => _ | JStr _ => _
                              | JArr _ => _ | JObj _ => _ end] => destruct x eqn:?
  end.

Lemma execute_function_trace : forall fc tr,
  exists x, snd (execute_function fc tr) = (tr ++ x)%list /\ List.length x <= 1
            /\ existsb is_request x = false.
Proof.
  intros fc tr. unfold execute_function.
  destruct_json_branches; simpl;
    solve [exists []; rewrite app_nil_r; repeat split; simpl; lia
          | eexists [Invoke _]; repeat split; simpl; lia].
Qed.

Lemma stub_first : forall r1 r2 p msgs, stub r1 r2 p msgs [] = Ok r1.
Proof. reflexivity. Qed.

Lemma stub_later : forall r1 r2 p msgs t, stub r1 r2 p msgs (Request p :: t) = Ok r2.
Proof. reflexivity. Qed.

Definition attr_get_msg (v : json) : string :=
  "'" ++ py_type_name v ++ "' object has no attribute 'get'".

Definition name_of (kvs : list (string * json)) : json :=
  match obj_get "name" kvs with Some v => v | None => JNull end.

(** C5: the stub first answers [FUNCTION_CALL: 5]; the parser (annotated
    [Optional[Dict]]) returns the truthy int [5], its execution raises on
    [.get], and the agent answers neither the first nor the second model
    response but the apology. *)
Lemma process_query_int_call :
  fst (fst (process_query json_decode (stub (dq "FUNCTION_CALL: 5") "It will rain.") both_on
              "What's the weather in Shenzhen?" []))
  = apology_prefix ++ "'int' object has no attribute 'get'"
  /\ fst (fst (process_query json_decode (stub (dq "FUNCTION_CALL: 5") "It will rain.") both_on
                 "What's the weather in Shenzhen?" [])) <> dq "FUNCTION_CALL: 5"
  /\ fst (fst (process_query json_decode (stub (dq "FUNCTION_CALL: 5") "It will rain.") both_on
                 "What's the weather in Shenzhen?" [])) <> "It will rain.".
Proof. vm_compute. split; [reflexivity | split; discriminate]. Qed.

Lemma execute_function_hashable_ok : forall kvs tr,
  json_hashable (name_of kvs) = true ->
  exists payload, fst (execute_function (JObj kvs) tr) = Ok payload.
Proof.
  intros kvs tr H. unfold execute_function. fold (name_of kvs). rewrite H. simpl.
  destruct_json_branches; simpl; eexists; reflexivity.
Qed.

Lemma process_query_stub_unfold : forall json_loads st p q r1 r2,
  current_api st = api_name p -> available st p = true -> (1 <= max_retries (config st))%Z ->
  process_query json_loads (stub r1 r2) st q [] =
  match (match parse_function_call json_loads r1 with
         | Some fc =>
             if json_truthy fc then
               match execute_function fc [Request p] with
               | (Err e, tr2) => (Err e, st, tr2)
               | (Ok function_result, tr2) =>
                   call_llm (stub r1 r2) st
                     [user_message (follow_up_prompt q fc function_result)] tr2
               end
             else (Ok r1, st, [Request p])
         | None => (Ok r1, st, [Request p])
         end) with
  | (Ok r, st1, tr1) => (r, st1, tr1)
  | (Err e, st1, tr1) => (apology_prefix ++ str_exn e, st1, tr1)
  end.
Proof.
  intros json_loads st p q r1 r2 Hc Ha Hm.
  unfold process_query, process_query_body.
  rewrite (call_llm_selected_ok (stub r1 r2) st p _ [] r1 Hc Ha Hm (stub_first r1 r2 p _)).
  reflexivity.
Qed.

(** The query flow against a stub backend on an available selected
    provider (with [max_retries >= 1]): when the parser returns nothing or
    a falsy value, the first response is returned after one request; when
    it returns a non-empty JSON object whose name is hashable, the call is
    executed once (at most one tool invocation), one follow-up request is
    made and the second response is returned (for [get_weather] with a
    [city] argument the trace is request, invocation, request); when it
    returns a truthy value that is not an object, or an object whose name
    is a list or an object, the execution raises and the apology is
    returned after one request. *)
Theorem process_query_stub : forall json_loads st p q r1 r2,
  current_api st = api_name p -> available st p = true -> (1 <= max_retries (config st))%Z ->
  (opt_truthy (parse_function_call json_loads r1) = false ->
     process_query json_loads (stub r1 r2) st q [] = (r1, st, [Request p]))
  /\ (forall kvs, parse_function_call json_loads r1 = Some (JObj kvs) -> kvs <> [] ->
        json_hashable (name_of kvs) = true ->
        exists x, process_query json_loads (stub r1 r2) st q [] = (r2, st, Request p :: x ++ [Request p])
                  /\ snd (execute_function (JObj kvs) [Request p]) = Request p :: x
                  /\ List.length x <= 1 /\ existsb is_request x = false)
  /\ (forall kvs city, parse_function_call json_loads r1 = Some (JObj kvs) ->
        obj_get "name" kvs = Some (JStr "get_weather") ->
        obj_get "arguments" kvs = Some (JObj [("city", JStr city)]) ->
        process_query json_loads (stub r1 r2) st q [] =
          (r2, st, [Request p; Invoke "get_weather"; Request p]))
  /\ (forall v, parse_function_call json_loads r1 = Some v -> json_truthy v = true ->
        (forall kvs, v <> JObj kvs) ->
        process_query json_loads (stub r1 r2) st q [] =
          (apology_prefix ++ attr_get_msg v, st, [Request p]))
  /\ (forall kvs, parse_function_call json_loads r1 = Some (JObj kvs) ->
        json_hashable (name_of kvs) = false ->
        process_query json_loads (stub r1 r2) st q [] =
          (apology_prefix ++ "unhashable type: '" ++ py_type_name (name_of kvs) ++ "'", st,
           [Request p])).
Proof.
  intros json_loads st p q r1 r2 Hc Ha Hm.
  rewrite (process_query_stub_unfold json_loads st p q r1 r2 Hc Ha Hm).
  split; [|split; [|split; [|split]]].
  - unfold opt_truthy. destruct (parse_function_call json_loads r1) as [fc|]; [|reflexivity].
    intros Hf. rewrite Hf. reflexivity.
  - intros kvs Hp Hne Hh. rewrite Hp.
    replace (json_truthy (JObj kvs)) with true by (destruct kvs; [congruence | reflexivity]).
    destruct (execute_function_hashable_ok kvs [Request p] Hh) as [payload Hpay].
    destruct (execute_function_trace (JObj kvs) [Request p]) as [x [Hx [Hlen Hreq]]].
    destruct (execute_function (JObj kvs) [Request p]) as [res tr2] eqn:He.
    simpl in Hpay, Hx. subst res tr2.
    rewrite (call_llm_selected_ok (stub r1 r2) st p _ _ r2 Hc Ha Hm (stub_later r1 r2 p _ x)).
    exists x. repeat split; assumption.
  - intros kvs city Hp Hn Har. rewrite Hp.
    assert (Hne : json_truthy (JObj kvs) = true)
      by (destruct kvs; [discriminate | reflexivity]).
    rewrite Hne. unfold execute_function. rewrite Hn, Har. simpl.
    destruct (String.eqb (py_lower city) "beijing");
      [|destruct (String.eqb (py_lower city) "shenzhen")]; simpl;
      rewrite (call_llm_selected_ok (stub r1 r2) st p _ _ r2 Hc Ha Hm
                 (stub_later r1 r2 p _ [Invoke "get_weather"])); reflexivity.
  - intros v Hp Ht Hno. rewrite Hp, Ht.
    destruct v as [| | | | |kvs]; try (exfalso; exact (Hno kvs eq_refl)); reflexivity.
  - intros kvs Hp Hh. rewrite Hp.
    assert (Hne : json_truthy (JObj kvs) = true).
    { unfold name_of in Hh. destruct kvs; [discriminate | reflexivity]. }
    rewrite Hne. unfold execute_function. fold (name_of kvs). rewrite Hh. reflexivity.
Qed.

Definition shenzhen_call : string :=
  dq "FUNCTION_CALL: {'name': 'get_weather', 'arguments': {'city': 'shenzhen'}}".

Definition shenzhen_answer : string := "Shenzhen: 28 degrees, 90% chance of rain; take an umbrella.".

Lemma process_query_stub_witness :
  current_api both_on = api_name DeepSeek /\ available both_on DeepSeek = true
  /\ (1 <= max_retries (config both_on))%Z
  /\ parse_function_call json_decode shenzhen_call
     = Some (JObj [("name", JStr "get_weather"); ("arguments", JObj [("city", JStr "shenzhen")])])
  /\ process_query json_decode (stub shenzhen_call shenzhen_answer) both_on
       "What's the weather in Shenzhen?" []
     = (shenzhen_answer, both_on, [Request DeepSeek; Invoke "get_weather"; Request DeepSeek]).
Proof.
  assert (Hc : current_api both_on = api_name DeepSeek) by reflexivity.
  assert (Ha : available both_on DeepSeek = true) by reflexivity.
  assert (Hm : (1 <= max_retries (config both_on))%Z) by (simpl; lia).
  assert (Hp : parse_function_call json_decode shenzhen_call
     = Some (JObj [("name", JStr "get_weather"); ("arguments", JObj [("city", JStr "shenzhen")])]))
    by (vm_compute; reflexivity).
  split; [exact Hc|]. split; [exact Ha|]. split; [exact Hm|]. split; [exact Hp|].
  destruct (process_query_stub json_decode both_on DeepSeek "What's the weather in Shenzhen?"
              shenzhen_call shenzhen_answer Hc Ha Hm) as [_ [_ [H3 _]]].
  exact (H3 _ "shenzhen" Hp eq_refl eq_refl).
Defined.


(* ------------------------------------------------------------------ *)
(** ** Further properties of the adapter *)

(** [set_api] keeps the configuration and both flags; it succeeds exactly
    when the named provider is available (for ["auto"], when one of them
    is), leaves the adapter untouched when it fails, and otherwise selects
    the named provider, ["auto"] preferring DeepSeek. *)
Theorem set_api_outcome : forall st name,
  config (snd (set_api st name)) = config st
  /\ deepseek_available (snd (set_api st name)) = deepseek_available st
  /\ qwen_available (snd (set_api st name)) = qwen_available st
  /\ fst (set_api st name) =
     ((String.eqb name "deepseek" && deepseek_available st)
      || (String.eqb name "qwen" && qwen_available st)
      || (String.eqb name "auto" && (deepseek_available st || qwen_available st)))%bool
  /\ (fst (set_api st name) = false -> snd (set_api st name) = st)
  /\ (fst (set_api st name) = true ->
      current_api (snd (set_api st name)) =
        (if String.eqb name "deepseek" then "deepseek"
         else if String.eqb name "qwen" then "qwen"
         else if deepseek_available st then "deepseek" else "qwen")).
Proof.
  intros st name. unfold set_api.
  destruct (String.eqb name "deepseek") eqn:E1;
    [apply String.eqb_eq in E1; subst name|];
    [|destruct (String.eqb name "qwen") eqn:E2;
      [apply String.eqb_eq in E2; subst name|];
      [|destruct (String.eqb name "auto") eqn:E3; [apply String.eqb_eq in E3; subst name|]]];
    destruct (deepseek_available st) eqn:Hd; destruct (qwen_available st) eqn:Hq;
    rewrite ?E1, ?E2, ?E3; simpl; rewrite ?Hd, ?Hq;
    repeat split; simpl; auto; discriminate.
Qed.

Lemma reachable_invariant : forall st, reachable st -> selection_invariant st = true.
Proof.
  intros st Hr. induction Hr as [ok cfg st H | st name Hr IH | net st msgs tr Hr IH].
  - exact (init_invariant ok cfg st H).
  - exact (set_api_invariant st name IH).
  - exact (call_llm_invariant net st msgs tr IH).
Qed.

(** In every reachable state where some provider is still available,
    [get_current_api_info] reports an available provider, DeepSeek or
    Qwen, with the model configured for it. *)
Theorem current_api_info_reachable : forall st,
  reachable st -> (deepseek_available st || qwen_available st)%bool = true ->
  info_available (get_current_api_info st) = true
  /\ ((info_name (get_current_api_info st) = "DeepSeek"
       /\ info_model (get_current_api_info st) = deepseek_model (config st))
      \/ (info_name (get_current_api_info st) = "千问"
          /\ info_model (get_current_api_info st) = qwen_model (config st))).
Proof.
  intros st Hr Hsome. pose proof (reachable_invariant st Hr) as Hi.
  unfold selection_invariant, selected_ok in Hi. unfold get_current_api_info.
  destruct (String.eqb (current_api st) "deepseek") eqn:Ed;
    destruct (String.eqb (current_api st) "qwen") eqn:Eq;
    try (apply String.eqb_eq in Ed; rewrite Ed in Eq; discriminate);
    destruct (deepseek_available st); destruct (qwen_available st);
    simpl in *; try discriminate;
    (split; [reflexivity | solve [left; split; reflexivity | right; split; reflexivity]]).
Qed.

Lemma current_api_info_reachable_witness :
  reachable (snd (fst (call_llm rate_limited_deepseek both_on sample_messages [])))
  /\ (deepseek_available (snd (fst (call_llm rate_limited_deepseek both_on sample_messages [])))
      || qwen_available (snd (fst (call_llm rate_limited_deepseek both_on sample_messages []))))%bool
     = true
  /\ info_available (get_current_api_info
       (snd (fst (call_llm rate_limited_deepseek both_on sample_messages [])))) = true.
Proof.
  assert (H : reachable (snd (fst (call_llm rate_limited_deepseek both_on sample_messages [])))).
  { apply reach_call. apply (reach_init true (cfg_retries 2)). reflexivity. }
  assert (H2 : (deepseek_available (snd (fst (call_llm rate_limited_deepseek both_on sample_messages [])))
      || qwen_available (snd (fst (call_llm rate_limited_deepseek both_on sample_messages []))))%bool
     = true) by (vm_compute; reflexivity).
  split; [exact H|]. split; [exact H2|].
  exact (proj1 (current_api_info_reachable _ H H2)).
Defined.

(** A failure of the selected provider that carries no rate-limit
    signature is re-raised unchanged, with the adapter unchanged and no
    other provider tried. *)
Theorem call_llm_other_failure : forall net st p msgs tr e tr1,
  current_api st = api_name p -> available st p = true ->
  call_api net p (config st) msgs tr = (Err e, tr1) ->
  is_rate_limited (py_lower (str_exn e)) = false ->
  call_llm net st msgs tr = (Err e, st, tr1).
Proof.
  intros net st p msgs tr e tr1 Hc Ha Hcall Hrl. unfold call_llm. rewrite Hc.
  destruct p; simpl in Ha, Hcall |- *; rewrite Ha; simpl; rewrite Hcall, Hrl; reflexivity.
Qed.

Definition timing_out : network := fun _ _ _ => Err (ProviderError "Request timed out.").

Lemma call_llm_other_failure_witness :
  current_api both_on = api_name DeepSeek /\ available both_on DeepSeek = true
  /\ call_api timing_out DeepSeek (config both_on) sample_messages [] =
     (Err (ProviderError "Request timed out."), [Request DeepSeek; Sleep 1; Request DeepSeek])
  /\ is_rate_limited (py_lower "Request timed out.") = false
  /\ call_llm timing_out both_on sample_messages [] =
     (Err (ProviderError "Request timed out."), both_on,
      [Request DeepSeek; Sleep 1; Request DeepSeek]).
Proof.
  assert (H1 : current_api both_on = api_name DeepSeek) by reflexivity.
  assert (H2 : available both_on DeepSeek = true) by reflexivity.
  assert (H3 : call_api timing_out DeepSeek (config both_on) sample_messages [] =
     (Err (ProviderError "Request timed out."), [Request DeepSeek; Sleep 1; Request DeepSeek]))
    by reflexivity.
  assert (H4 : is_rate_limited (py_lower (str_exn (ProviderError "Request timed out."))) = false)
    by reflexivity.
  split; [exact H1|]. split; [exact H2|]. split; [exact H3|]. split; [exact H4|].
  exact (call_llm_other_failure timing_out both_on DeepSeek sample_messages [] _ _ H1 H2 H3 H4).
Defined.

(** When the selected provider's client returns a text, [call_llm]
    returns it and leaves the adapter (selection and flags) unchanged. *)
Theorem call_llm_success : forall net st p msgs tr r tr1,
  current_api st = api_name p -> available st p = true ->
  call_api net p (config st) msgs tr = (Ok r, tr1) ->
  call_llm net st msgs tr = (Ok r, st, tr1).
Proof.
  intros net st p msgs tr r tr1 Hc Ha Hcall. unfold call_llm. rewrite Hc.
  destruct p; simpl in Ha, Hcall |- *; rewrite Ha; simpl; rewrite Hcall; reflexivity.
Qed.

Lemma call_llm_success_witness :
  current_api (mkAdapter (cfg_retries 3) "qwen" false true) = api_name Qwen
  /\ available (mkAdapter (cfg_retries 3) "qwen" false true) Qwen = true
  /\ call_api rate_limited_deepseek Qwen (config (mkAdapter (cfg_retries 3) "qwen" false true))
       sample_messages [] = (Ok "fine", [Request Qwen])
  /\ call_llm rate_limited_deepseek (mkAdapter (cfg_retries 3) "qwen" false true) sample_messages []
     = (Ok "fine", mkAdapter (cfg_retries 3) "qwen" false true, [Request Qwen]).
Proof.
  assert (H1 : current_api (mkAdapter (cfg_retries 3) "qwen" false true) = api_name Qwen)
    by reflexivity.
  assert (H2 : available (mkAdapter (cfg_retries 3) "qwen" false true) Qwen = true) by reflexivity.
  assert (H3 : call_api rate_limited_deepseek Qwen (config (mkAdapter (cfg_retries 3) "qwen" false true))
       sample_messages [] = (Ok "fine", [Request Qwen])) by reflexivity.
  split; [exact H1|]. split; [exact H2|]. split; [exact H3|].
  exact (call_llm_success rate_limited_deepseek _ Qwen sample_messages [] _ _ H1 H2 H3).
Defined.

Lemma call_llm_never_enables_one : forall net st msgs tr,
  config (snd (fst (call_llm net st msgs tr))) = config st
  /\ (deepseek_available (snd (fst (call_llm net st msgs tr))) = true -> deepseek_available st = true)
  /\ (qwen_available (snd (fst (call_llm net st msgs tr))) = true -> qwen_available st = true).
Proof.
  intros net st msgs tr. unfold call_llm.
  destruct_branches; simpl; repeat split; auto; try discriminate;
    repeat match goal with
           | E : (_ && _)%bool = true |- _ => apply andb_true_iff in E; destruct E
           end; auto.
Qed.

(** Over any sequence of [call_llm] calls the configuration never changes
    and a provider whose flag has been cleared is never made available
    again. *)
Theorem call_many_never_enables : forall net ms st tr,
  config (fst (call_many net st ms tr)) = config st
  /\ (deepseek_available (fst (call_many net st ms tr)) = true -> deepseek_available st = true)
  /\ (qwen_available (fst (call_many net st ms tr)) = true -> qwen_available st = true).
Proof.
  intros net ms. induction ms as [|m rest IH]; intros st tr; [simpl; auto|].
  simpl. destruct (call_llm_never_enables_one net st m tr) as [Hc [Hd Hq]].
  destruct (call_llm net st m tr) as [[r st1] tr1]. simpl in Hc, Hd, Hq.
  destruct (IH st1 tr1) as [Hc' [Hd' Hq']]. repeat split.
  - congruence.
  - intros H. apply Hd, Hd', H.
  - intros H. apply Hq, Hq', H.
Qed.

Lemma count_requests_app : forall t u : trace,
  count_requests (t ++ u)%list = count_requests t + count_requests u.
Proof. intros t u. unfold count_requests. rewrite filter_app, length_app. reflexivity. Qed.

Lemma call_api_requests : forall net p cfg msgs tr,
  exists suffix, snd (call_api net p cfg msgs tr) = (tr ++ suffix)%list
                 /\ count_requests suffix <= Z.to_nat (max_retries cfg).
Proof.
  intros net p cfg msgs tr. rewrite call_api_unfold.
  destruct (retry_loop_requests net p (max_retries cfg) (exhausted_msg p) msgs
              (py_range (max_retries cfg)) tr) as [suf [Hs Hc]].
  exists suf. split; [exact Hs|]. unfold py_range in Hc. rewrite length_seq in Hc. exact Hc.
Qed.

Lemma call_llm_requests : forall net st msgs tr,
  exists suffix, snd (call_llm net st msgs tr) = (tr ++ suffix)%list
                 /\ count_requests suffix <= 2 * Z.to_nat (max_retries (config st)).
Proof.
  intros net st msgs tr. unfold call_llm.
  destruct (call_api_requests net DeepSeek (config st) msgs tr) as [s1 [H1 C1]].
  destruct (call_api_requests net Qwen (config st) msgs tr) as [s2 [H2 C2]].
  rewrite call_api_deepseek in H1. rewrite call_api_qwen in H2.
  destruct (String.eqb (current_api st) "deepseek" && deepseek_available st).
  - destruct (call_deepseek_api net (config st) msgs tr) as [[r|e] tr1]; simpl in H1; subst tr1.
    + exists s1. split; [reflexivity | lia].
    + destruct (is_rate_limited (py_lower (str_exn e))); [|exists s1; split; [reflexivity|lia]].
      destruct (qwen_available (set_deepseek_available st false)); [|exists s1; split; [reflexivity|lia]].
      destruct (call_api_requests net Qwen (config st) msgs (tr ++ s1)%list) as [s3 [H3 C3]].
      rewrite call_api_qwen in H3. simpl.
      destruct (call_qwen_api net (config st) msgs (tr ++ s1)%list) as [r2 tr2]. simpl in H3 |- *.
      subst tr2. exists (s1 ++ s3)%list. rewrite app_assoc. split; [reflexivity|].
      rewrite count_requests_app. lia.
  - destruct (String.eqb (current_api st) "qwen" && qwen_available st);
      [|exists []; rewrite app_nil_r; split; [reflexivity | apply Nat.le_0_l]].
    destruct (call_qwen_api net (config st) msgs tr) as [[r|e] tr1]; simpl in H2; subst tr1.
    + exists s2. split; [reflexivity | lia].
    + destruct (is_rate_limited (py_lower (str_exn e))); [|exists s2; split; [reflexivity|lia]].
      destruct (deepseek_available (set_qwen_available st false)); [|exists s2; split; [reflexivity|lia]].
      destruct (call_api_requests net DeepSeek (config st) msgs (tr ++ s2)%list) as [s3 [H3 C3]].
      rewrite call_api_deepseek in H3. simpl.
      destruct (call_deepseek_api net (config st) msgs (tr ++ s2)%list) as [r2 tr2]. simpl in H3 |- *.
      subst tr2. exists (s2 ++ s3)%list. rewrite app_assoc. split; [reflexivity|].
      rewrite count_requests_app. lia.
Qed.

(* ------------------------------------------------------------------ *)
(** ** Further properties of the provider clients *)

(** The seconds slept along a trace. *)
Fixpoint total_sleep (t : trace) : Z :=
  match t with
  | [] => 0%Z
  | Sleep s :: t' => (s + total_sleep t')%Z
  | _ :: t' => total_sleep t'
  end%list.

(** A backend that fails its first [n] requests (with a connection
    error) and answers afterwards. *)
Definition flaky (n : nat) : network :=
  fun _ _ t => if (count_requests t <? n)%nat then Err (ProviderError "Connection error.") else Ok "done".

Lemma backoff_prefix_snoc : forall p j,
  backoff_prefix p 0 (S j) = (backoff_prefix p 0 j ++ [Request p; Sleep (2 ^ Z.of_nat j)%Z])%list.
Proof.
  intros p j. unfold backoff_prefix. rewrite seq_S, flat_map_app. simpl. rewrite ?app_nil_r.
  reflexivity.
Qed.

Lemma retry_loop_success_aux : forall net p mr exh msgs tr k r,
  (Z.of_nat k < mr)%Z ->
  (forall i, (i < k)%nat -> exists e, net p msgs (tr ++ backoff_prefix p 0 i)%list = Err e) ->
  net p msgs (tr ++ backoff_prefix p 0 k)%list = Ok r ->
  forall d j m tr0, j + d = k -> (d < m)%nat -> tr0 = (tr ++ backoff_prefix p 0 j)%list ->
  retry_loop net p mr exh msgs (seq j m) tr0 = (Ok r, (tr ++ backoff_prefix p 0 k ++ [Request p])%list).
Proof.
  intros net p mr exh msgs tr k r Hk Hfail Hok d.
  induction d as [|d IH]; intros j m tr0 Hjk Hdm Htr0; destruct m as [|m]; try lia.
  - rewrite Nat.add_0_r in Hjk. subst j tr0. cbn [seq retry_loop]. rewrite Hok, app_assoc.
    reflexivity.
  - subst tr0. cbn [seq retry_loop]. destruct (Hfail j ltac:(lia)) as [e He]. rewrite He.
    replace (Z.of_nat j <? mr - 1)%Z with true by (symmetry; apply Z.ltb_lt; lia).
    apply (IH (S j) m); [lia | lia |].
    rewrite backoff_prefix_snoc, <- !app_assoc. reflexivity.
Qed.

(** If the first [k] attempts of a provider client fail and attempt [k]
    succeeds, with [k < max_retries], the client returns that answer
    after [k] failed requests, each followed by its backoff sleep
    [2^i]. *)
Theorem call_api_succeeds_after_failures : forall net p cfg msgs tr k r,
  (Z.of_nat k < max_retries cfg)%Z ->
  (forall i, (i < k)%nat -> exists e, net p msgs (tr ++ backoff_prefix p 0 i)%list = Err e) ->
  net p msgs (tr ++ backoff_prefix p 0 k)%list = Ok r ->
  call_api net p cfg msgs tr = (Ok r, (tr ++ backoff_prefix p 0 k ++ [Request p])%list).
Proof.
  intros net p cfg msgs tr k r Hk Hfail Hok. rewrite call_api_unfold. unfold py_range.
  apply (retry_loop_success_aux net p (max_retries cfg) (exhausted_msg p) msgs tr k r Hk Hfail Hok
           k 0 (Z.to_nat (max_retries cfg)) tr); [lia | lia |].
  simpl. rewrite app_nil_r. reflexivity.
Qed.

Lemma call_api_succeeds_after_failures_witness :
  (Z.of_nat 2 < max_retries (cfg_retries 3))%Z
  /\ (forall i, (i < 2)%nat ->
        exists e, flaky 2 Qwen sample_messages ([] ++ backoff_prefix Qwen 0 i)%list = Err e)
  /\ flaky 2 Qwen sample_messages ([] ++ backoff_prefix Qwen 0 2)%list = Ok "done"
  /\ call_api (flaky 2) Qwen (cfg_retries 3) sample_messages [] =
     (Ok "done", [Request Qwen; Sleep 1; Request Qwen; Sleep 2; Request Qwen]).
Proof.
  assert (H1 : (Z.of_nat 2 < max_retries (cfg_retries 3))%Z) by (simpl; lia).
  assert (H2 : forall i, (i < 2)%nat ->
        exists e, flaky 2 Qwen sample_messages ([] ++ backoff_prefix Qwen 0 i)%list = Err e).
  { intros i Hi. exists (ProviderError "Connection error.").
    destruct i as [|[|i]]; [reflexivity | reflexivity | lia]. }
  assert (H3 : flaky 2 Qwen sample_messages ([] ++ backoff_prefix Qwen 0 2)%list = Ok "done")
    by reflexivity.
  split; [exact H1|]. split; [exact H2|]. split; [exact H3|].
  exact (call_api_succeeds_after_failures (flaky 2) Qwen (cfg_retries 3) sample_messages [] 2 "done"
           H1 H2 H3).
Defined.

Lemma total_sleep_app : forall t u : trace,
  total_sleep (t ++ u)%list = (total_sleep t + total_sleep u)%Z.
Proof.
  intros t u. induction t as [|[p|s|f] t IH]; simpl; rewrite ?IH; lia.
Qed.

Lemma total_sleep_backoff : forall p n k,
  total_sleep (backoff_prefix p k n) = (2 ^ Z.of_nat (k + n) - 2 ^ Z.of_nat k)%Z.
Proof.
  intros p n. induction n as [|n IH]; intros k.
  - rewrite Nat.add_0_r. simpl. lia.
  - rewrite backoff_prefix_succ. cbn [total_sleep]. rewrite IH.
    replace (S k + n)%nat with (k + S n)%nat by lia.
    rewrite Nat2Z.inj_succ, Z.pow_succ_r by lia. lia.
Qed.

(** Against a backend that always fails, a provider client with
    [max_retries = n + 1] sleeps [1 + 2 + ... + 2^(n-1) = 2^n - 1]
    seconds in total before giving up. *)
Theorem call_api_always_failing_sleep : forall net p cfg msgs tr n,
  (forall t, exists e, net p msgs t = Err e) ->
  max_retries cfg = Z.of_nat (S n) ->
  total_sleep (snd (call_api net p cfg msgs tr)) = (total_sleep tr + 2 ^ Z.of_nat n - 1)%Z.
Proof.
  intros net p cfg msgs tr n Hfail Hm. rewrite call_api_unfold, Hm. unfold py_range.
  rewrite Nat2Z.id.
  pose proof (retry_loop_always_fails net p msgs (exhausted_msg p) n 0 tr Hfail) as H.
  rewrite Nat.add_0_l in H. rewrite H. simpl snd.
  rewrite !total_sleep_app, total_sleep_backoff. simpl. lia.
Qed.

Lemma call_api_always_failing_sleep_witness :
  (forall t, exists e, always_failing "Connection error." DeepSeek sample_messages t = Err e)
  /\ max_retries (cfg_retries 4) = Z.of_nat (S 3)
  /\ total_sleep (snd (call_api (always_failing "Connection error.") DeepSeek (cfg_retries 4)
                        sample_messages [])) = 7%Z.
Proof.
  assert (H1 : forall t, exists e, always_failing "Connection error." DeepSeek sample_messages t = Err e)
    by (intros t; eexists; reflexivity).
  assert (H2 : max_retries (cfg_retries 4) = Z.of_nat (S 3)) by reflexivity.
  split; [exact H1|]. split; [exact H2|].
  rewrite (call_api_always_failing_sleep _ DeepSeek (cfg_retries 4) sample_messages [] 3 H1 H2).
  reflexivity.
Defined.

(* ------------------------------------------------------------------ *)
(** ** Further properties of the tool registry *)

Lemma ascii_lower_idem : forall c, ascii_lower (ascii_lower c) = ascii_lower c.
Proof.
  intros c. unfold ascii_lower at 2 3.
  destruct ((65 <=? nat_of_ascii c)%nat && (nat_of_ascii c <=? 90)%nat) eqn:E.
  - apply andb_true_iff in E. destruct E as [E1 E2].
    apply Nat.leb_le in E1. apply Nat.leb_le in E2.
    unfold ascii_lower. rewrite nat_ascii_embedding by lia.
    replace ((65 <=? nat_of_ascii c + 32)%nat && (nat_of_ascii c + 32 <=? 90)%nat)%bool with false;
      [reflexivity|].
    symmetry. apply andb_false_iff. right. apply Nat.leb_gt. lia.
  - unfold ascii_lower. rewrite E. reflexivity.
Qed.

Lemma py_lower_idem : forall s, py_lower (py_lower s) = py_lower s.
Proof. intros s. induction s as [|c s IH]; simpl; [reflexivity|]. rewrite ascii_lower_idem, IH. reflexivity. Qed.

(** [get_weather] looks cities up case-insensitively: a city name and its
    lower-cased form give the same answer. *)
Theorem get_weather_case_insensitive : forall c,
  get_weather (JStr c) = get_weather (JStr (py_lower c)).
Proof. intros c. unfold get_weather. rewrite py_lower_idem. reflexivity. Qed.

(** A city other than Beijing and Shenzhen (in any letter case) gets the
    JSON object [{"error": "Weather Unavailable"}], never an exception. *)
Theorem get_weather_unknown_city : forall c,
  py_lower c <> "beijing" -> py_lower c <> "shenzhen" ->
  get_weather (JStr c) = Ok (json_dumps (JObj [("error", JStr "Weather Unavailable")])).
Proof.
  intros c Hb Hs. unfold get_weather. cbn [obj_get weather_data].
  destruct (String.eqb (py_lower c) "beijing") eqn:E1; [apply String.eqb_eq in E1; contradiction|].
  destruct (String.eqb (py_lower c) "shenzhen") eqn:E2; [apply String.eqb_eq in E2; contradiction|].
  reflexivity.
Qed.

Lemma get_weather_unknown_city_witness :
  py_lower "Paris" <> "beijing" /\ py_lower "Paris" <> "shenzhen"
  /\ get_weather (JStr "Paris") = Ok (json_dumps (JObj [("error", JStr "Weather Unavailable")])).
Proof.
  assert (H1 : py_lower "Paris" <> "beijing") by (vm_compute; discriminate).
  assert (H2 : py_lower "Paris" <> "shenzhen") by (vm_compute; discriminate).
  split; [exact H1|]. split; [exact H2|]. exact (get_weather_unknown_city "Paris" H1 H2).
Defined.

(** A city argument that is not a string makes [get_weather] raise the
    [AttributeError] of [.lower()] on that value's type; it is the only
    way [get_weather] fails. *)
Theorem get_weather_non_string : forall v,
  (forall c, v <> JStr c) ->
  get_weather v = Err (AttributeError ("'" ++ py_type_name v ++ "' object has no attribute 'lower'")).
Proof.
  intros v Hv. destruct v; try reflexivity. exfalso. exact (Hv s eq_refl).
Qed.

Lemma get_weather_non_string_witness :
  (forall c, JNum 5 <> JStr c)
  /\ get_weather (JNum 5) = Err (AttributeError "'int' object has no attribute 'lower'").
Proof.
  assert (H : forall c, JNum 5 <> JStr c) by (intros c; discriminate).
  split; [exact H|]. exact (get_weather_non_string (JNum 5) H).
Defined.

Lemma find_none_forall : forall {A} (f : A -> bool) l,
  find f l = None <-> Forall (fun x => f x = false) l.
Proof.
  intros A f l. induction l as [|x l IH]; simpl.
  - split; auto.
  - rewrite Forall_cons_iff, <- IH. destruct (f x); split; intros H;
      try discriminate; try (destruct H; discriminate); auto. destruct H; auto.
Qed.

Lemma bind_kwargs_get_weather : forall kwargs,
  (exists vals, bind_kwargs get_weather_fn kwargs = Ok vals)
  <-> Forall (fun kv => fst kv = "city") kwargs /\ obj_get "city" kwargs <> None.
Proof.
  intros kwargs. unfold bind_kwargs.
  assert (Hf : find (fun '(k, _) => negb (existsb (String.eqb k) (fn_params get_weather_fn))) kwargs
               = None <-> Forall (fun kv => fst kv = "city") kwargs).
  { rewrite find_none_forall. split; intros H; eapply Forall_impl; try exact H;
      intros [k v]; simpl; rewrite orb_false_r.
    - destruct (String.eqb k "city") eqn:E; [intros _; apply String.eqb_eq; exact E | discriminate].
    - intros ->. reflexivity. }
  destruct (find _ kwargs) as [[k v]|] eqn:E1.
  - split; [intros [vals H]; discriminate|]. intros [Hall _]. apply Hf in Hall. discriminate.
  - cbn [find fn_params get_weather_fn].
    destruct (obj_get "city" kwargs) eqn:E2.
    + split; [intros _; split; [apply Hf; reflexivity | discriminate]|]. intros _. eexists. reflexivity.
    + split; [intros [vals H]; discriminate|]. intros [_ H]. contradiction.
Qed.

Lemma app_single_neq : forall (tr : trace) x, tr <> (tr ++ [x])%list.
Proof. intros tr x H. apply (f_equal (@List.length event)) in H. rewrite length_app in H. simpl in H. lia. Qed.

(** [_execute_function] enters [get_weather] (and records it) exactly
    when the call is an object naming ["get_weather"] whose
    [arguments] is an object with the key ["city"] and no other key;
    every other call leaves the trace unchanged. *)
Theorem execute_function_invokes : forall fc tr,
  (snd (execute_function fc tr) = (tr ++ [Invoke "get_weather"])%list
   <-> exists kvs kwargs, fc = JObj kvs /\ obj_get "name" kvs = Some (JStr "get_weather")
        /\ obj_get "arguments" kvs = Some (JObj kwargs)
        /\ Forall (fun kv => fst kv = "city") kwargs /\ obj_get "city" kwargs <> None)
  /\ (snd (execute_function fc tr) = tr \/ snd (execute_function fc tr) = (tr ++ [Invoke "get_weather"])%list).
Proof.
  intros fc tr. destruct fc as [| | | | |kvs];
    try (split; [split; [intros H; exfalso; exact (app_single_neq tr _ H)
                        |intros (kvs & kw & H & _); discriminate] | left; reflexivity]).
  unfold execute_function.
  destruct (obj_get "name" kvs) as [nm|] eqn:En;
    [|split; [split; [intros H; exfalso; exact (app_single_neq tr _ (eq_sym (eq_sym H)))
                     |intros (kvs' & kw & H & Hn & _); injection H as <-; congruence] | left; reflexivity]].
  destruct nm as [| | |s| |];
    try (split; [split; [intros H; exfalso; exact (app_single_neq tr _ H)
                        |intros (kvs' & kw & H & Hn & _); injection H as <-; congruence] | left; reflexivity]).
  cbn [json_hashable negb fn_lookup AVAILABLE_FUNCTIONS].
  destruct (String.eqb s "get_weather") eqn:Es;
    [apply String.eqb_eq in Es; subst s
    |split; [split; [intros H; exfalso; exact (app_single_neq tr _ H)
                    |intros (kvs' & kw & H & Hn & _); injection H as <-; rewrite En in Hn;
                     injection Hn as ->; rewrite String.eqb_refl in Es; discriminate] | left; reflexivity]].
  destruct (obj_get "arguments" kvs) as [a|] eqn:Ea;
    [|split; [split; [intros H; exfalso; exact (app_single_neq tr _ H)
                     |intros (kvs' & kw & H & Hn & Ha & _); injection H as <-; congruence] | left; reflexivity]].
  destruct a as [| | | | |kw];
    try (split; [split; [intros H; exfalso; exact (app_single_neq tr _ H)
                        |intros (kvs' & kw & H & Hn & Ha & _); injection H as <-; congruence] | left; reflexivity]).
  pose proof (bind_kwargs_get_weather kw) as Hb.
  destruct (bind_kwargs get_weather_fn kw) as [vals|e] eqn:Eb.
  - destruct (proj1 Hb (ex_intro _ vals eq_refl)) as [Hall Hc].
    destruct (fn_body get_weather_fn vals); cbn [snd fn_name get_weather_fn];
      (split; [split; [intros _; exists kvs, kw; repeat split; assumption | reflexivity]
              | right; reflexivity]).
  - split; [|left; reflexivity]. split; [intros H; exfalso; exact (app_single_neq tr _ H)|].
    intros (kvs' & kw' & H & Hn & Ha & Hall & Hc). injection H as <-. rewrite Ea in Ha.
    injection Ha as <-. destruct (proj2 Hb (conj Hall Hc)) as [vals H]. discriminate.
Qed.

(** The only exceptions that escape [_execute_function] are the
    [AttributeError] of [.get] on a call that is not an object and the
    [TypeError] of an unhashable function name (a list or an object);
    when one escapes, nothing has been invoked. *)
Theorem execute_function_raises : forall fc tr e tr1,
  execute_function fc tr = (Err e, tr1) ->
  tr1 = tr
  /\ (((forall kvs, fc <> JObj kvs)
       /\ e = AttributeError ("'" ++ py_type_name fc ++ "' object has no attribute 'get'"))
      \/ (exists kvs, fc = JObj kvs /\ json_hashable (name_of kvs) = false
          /\ e = TypeError ("unhashable type: '" ++ py_type_name (name_of kvs) ++ "'"))).
Proof.
  intros fc tr e tr1 H. destruct fc as [| | | | |kvs];
    try (injection H as <- <-; split; [reflexivity | left; split; [intros kvs; discriminate | reflexivity]]).
  destruct (json_hashable (name_of kvs)) eqn:Eh.
  - exfalso. destruct (execute_function_hashable_ok kvs tr Eh) as [payload Hp].
    rewrite H in Hp. discriminate.
  - unfold execute_function in H. fold (name_of kvs) in H. rewrite Eh in H. simpl in H.
    injection H as <- <-. split; [reflexivity|]. right. exists kvs. auto.
Qed.

Lemma execute_function_raises_witness :
  execute_function (JObj [("name", JArr []); ("arguments", JObj [])]) [] =
    (Err (TypeError "unhashable type: 'list'"), [])
  /\ ([] : trace) = [].
Proof.
  assert (H : execute_function (JObj [("name", JArr []); ("arguments", JObj [])]) [] =
    (Err (TypeError "unhashable type: 'list'"), [])) by reflexivity.
  split; [exact H|]. exact (proj1 (execute_function_raises _ _ _ _ H)).
Defined.

(* ------------------------------------------------------------------ *)
(** ** Properties of the menus and of [main] *)

(** [strip()] drops Unicode whitespace in the menus and the query loop:
    U+3000 before ["1"] and before ["exit"]. *)
Example show_menu_unicode_space :
  show_menu true false [String (ascii_of_nat 227) (String (ascii_of_nat 128) (String (ascii_of_nat 128) "1"))]
  = Some ("1", []).
Proof. vm_compute. reflexivity. Qed.

Example main_unicode_exit :
  main json_decode (stub "Sunny." "Sunny.") true
    ["1"; String (ascii_of_nat 227) (String (ascii_of_nat 128) (String (ascii_of_nat 128) "EXIT"))]
  = Some (Finished, Some (mkAdapter load_config "deepseek" true true), [], []).
Proof. vm_compute. reflexivity. Qed.

(** The input loop of a menu returns the first line whose
    [strip().lower()] is one of the options (lower-cased) together with
    the lines after it; when the lines run out without one, it raises
    [EOFError] ([None]). *)
Theorem read_choice_first_valid : forall options inputs,
  match read_choice options inputs with
  | Some (c, rest) =>
      exists pre line, inputs = (pre ++ line :: rest)%list
        /\ Forall (fun l => existsb (String.eqb (py_lower (py_strip l)))
                              (map (fun '(o, _) => py_lower o) options) = false) pre
        /\ c = py_lower (py_strip line)
        /\ In c (map (fun '(o, _) => py_lower o) options)
  | None =>
      Forall (fun l => existsb (String.eqb (py_lower (py_strip l)))
                         (map (fun '(o, _) => py_lower o) options) = false) inputs
  end.
Proof.
  intros options inputs. induction inputs as [|line rest IH]; simpl; [constructor|].
  destruct (existsb (String.eqb (py_lower (py_strip line))) (map (fun '(o, _) => py_lower o) options))
    eqn:E.
  - exists [], line. repeat split; [constructor|].
    apply existsb_exists in E. destruct E as [x [Hx Heq]]. apply String.eqb_eq in Heq. subst x.
    exact Hx.
  - destruct (read_choice options rest) as [[c r]|].
    + destruct IH as (pre & l & Hr & Hpre & Hc & Hin). exists (line :: pre), l.
      rewrite Hr. repeat split; auto.
    + constructor; assumption.
Qed.

Lemma read_choice_valid : forall options inputs c rest,
  read_choice options inputs = Some (c, rest) -> In c (map (fun '(o, _) => py_lower o) options).
Proof.
  intros options inputs. induction inputs as [|line l IH]; intros c rest H; simpl in H; [discriminate|].
  destruct (existsb (String.eqb (py_lower (py_strip line))) (map (fun '(o, _) => py_lower o) options))
    eqn:E.
  - injection H as <- _. apply existsb_exists in E. destruct E as [x [Hx Heq]].
    apply String.eqb_eq in Heq. subst x. exact Hx.
  - exact (IH c rest H).
Qed.

Lemma read_choice_rest : forall options inputs c rest,
  read_choice options inputs = Some (c, rest) ->
  List.length rest < List.length inputs /\ (forall l, In l rest -> In l inputs).
Proof.
  intros options inputs. induction inputs as [|line l IH]; intros c rest H; simpl in H; [discriminate|].
  destruct (existsb _ _).
  - injection H as _ <-. simpl. split; [lia | auto].
  - destruct (IH c rest H) as [Hl Hin]. simpl. split; [lia | auto].
Qed.

(** Both menus return only options they offered: ["1"] needs DeepSeek,
    ["2"] needs Qwen, ["3"] needs both, and ["exit"] is always offered. *)
Theorem menu_choices_offered : forall ds qw inputs c rest,
  (show_menu ds qw inputs = Some (c, rest) \/ show_api_menu ds qw inputs = Some (c, rest)) ->
  (c = "1" /\ ds = true) \/ (c = "2" /\ qw = true) \/ (c = "3" /\ ds = true /\ qw = true)
  \/ c = "exit".
Proof.
  intros ds qw inputs c rest [H|H]; apply read_choice_valid in H;
    destruct ds, qw; vm_compute in H; intuition.
Qed.

Lemma menu_choices_offered_witness :
  (show_menu true false [" x"; " EXIT "] = Some ("exit", [])
   \/ show_api_menu true false [" x"; " EXIT "] = Some ("exit", []))
  /\ ((("exit" = "1" /\ true = true) \/ ("exit" = "2" /\ false = true)
       \/ ("exit" = "3" /\ true = true /\ false = true) \/ "exit" = "exit")).
Proof.
  assert (H : show_menu true false [" x"; " EXIT "] = Some ("exit", [])
   \/ show_api_menu true false [" x"; " EXIT "] = Some ("exit", [])) by (left; vm_compute; reflexivity).
  split; [exact H|]. exact (menu_choices_offered true false [" x"; " EXIT "] "exit" [] H).
Defined.

Lemma apply_menu_choice_set_api : forall st c, exists name, apply_menu_choice st c = set_api st name.
Proof.
  intros st c. unfold apply_menu_choice.
  destruct (String.eqb c "1"); [eauto|]. destruct (String.eqb c "2"); eauto.
Qed.

(** A menu choice other than ["exit"], read from a menu built from the
    adapter's own flags, always switches successfully: [set_api] returns
    true and the selection names an available provider. *)
Theorem menu_choice_switches : forall st inputs c rest,
  (show_menu (deepseek_available st) (qwen_available st) inputs = Some (c, rest)
   \/ show_api_menu (deepseek_available st) (qwen_available st) inputs = Some (c, rest)) ->
  c <> "exit" ->
  fst (apply_menu_choice st c) = true /\ selected_ok (snd (apply_menu_choice st c)) = true.
Proof.
  intros st inputs c rest [H|H] Hc; apply read_choice_valid in H;
    unfold apply_menu_choice, set_api, selected_ok;
    destruct (deepseek_available st) eqn:Hd, (qwen_available st) eqn:Hq; vm_compute in H;
    intuition (subst; try congruence; simpl; rewrite ?Hd, ?Hq; reflexivity).
Qed.

Lemma menu_choice_switches_witness :
  (show_menu (deepseek_available both_on) (qwen_available both_on) ["3"] = Some ("3", [])
   \/ show_api_menu (deepseek_available both_on) (qwen_available both_on) ["3"] = Some ("3", []))
  /\ "3" <> "exit"
  /\ fst (apply_menu_choice both_on "3") = true.
Proof.
  assert (H : show_menu (deepseek_available both_on) (qwen_available both_on) ["3"] = Some ("3", [])
   \/ show_api_menu (deepseek_available both_on) (qwen_available both_on) ["3"] = Some ("3", []))
    by (left; vm_compute; reflexivity).
  assert (Hc : "3" <> "exit") by discriminate.
  split; [exact H|]. split; [exact Hc|]. exact (proj1 (menu_choice_switches both_on ["3"] "3" [] H Hc)).
Defined.

Lemma api_switch_rest : forall st inputs st1 rest,
  api_switch st inputs = Switched st1 rest ->
  List.length rest < List.length inputs /\ (forall l, In l rest -> In l inputs)
  /\ exists name, st1 = snd (set_api st name).
Proof.
  intros st inputs st1 rest H. unfold api_switch, show_api_menu in H.
  destruct (read_choice _ inputs) as [[c r]|] eqn:E; [|discriminate].
  destruct (String.eqb c "exit"); [discriminate|]. injection H as <- <-.
  destruct (read_choice_rest _ _ _ _ E) as [Hl Hin]. split; [exact Hl|]. split; [exact Hin|].
  destruct (apply_menu_choice_set_api st c) as [name Hn]. exists name. rewrite Hn. reflexivity.
Qed.

Lemma op_loop_rest : forall st inputs st1 rest,
  op_loop st inputs = Switched st1 rest ->
  List.length rest < List.length inputs /\ (forall l, In l rest -> In l inputs)
  /\ (st1 = st \/ exists name, st1 = snd (set_api st name)).
Proof.
  intros st inputs. induction inputs as [|line l IH]; intros st1 rest H; simpl in H; [discriminate|].
  destruct (String.eqb (py_lower (py_strip line)) "1").
  - injection H as <- <-. simpl. split; [lia|]. split; [auto | left; reflexivity].
  - destruct (String.eqb (py_lower (py_strip line)) "2").
    + destruct (api_switch_rest st l st1 rest H) as [Hl [Hin Hn]]. simpl.
      split; [lia|]. split; [auto | right; exact Hn].
    + destruct (String.eqb (py_lower (py_strip line)) "exit"); [discriminate|].
      destruct (IH st1 rest H) as [Hl [Hin Hn]]. simpl. split; [lia|]. split; [auto | exact Hn].
Qed.

Lemma main_loop_fuel : forall json_loads net fuel st inputs tr asked,
  List.length inputs < fuel -> main_loop json_loads net fuel st inputs tr asked <> None.
Proof.
  intros json_loads net fuel. induction fuel as [|fuel IH]; intros st inputs tr asked Hf; [lia|].
  destruct inputs as [|line rest]; simpl; [discriminate|]. simpl in Hf.
  destruct (String.eqb (py_lower (py_strip line)) "exit"); [discriminate|].
  destruct (String.eqb (py_lower (py_strip line)) "switch").
  - destruct (api_switch st rest) as [| |st1 rest1] eqn:E; try discriminate.
    apply IH. destruct (api_switch_rest _ _ _ _ E) as [Hl _]. lia.
  - destruct (String.eqb (py_strip line) ""); [apply IH; lia|].
    destruct (process_query json_loads net st (py_strip line) tr) as [[answer st1] tr1].
    destruct (op_loop st1 rest) as [| |st2 rest2] eqn:E; try discriminate.
    + apply IH. simpl. lia.
    + apply IH. destruct (op_loop_rest _ _ _ _ E) as [Hl _]. lia.
Qed.

(** [main] ends on every finite input: each iteration of its loops reads
    a line, and when the lines run out [input()] raises and the program
    exits. *)
Theorem main_terminates : forall json_loads net openai_ok inputs,
  main json_loads net openai_ok inputs <> None.
Proof.
  intros json_loads net openai_ok inputs. unfold main.
  destruct (LLMAdapter_init openai_ok load_config) as [st|e]; [|discriminate].
  destruct (show_menu _ _ inputs) as [[c rest]|]; [|discriminate].
  destruct (String.eqb c "exit"); [discriminate|].
  destruct (main_loop json_loads net (S (List.length rest)) _ rest [] []) as [[[[s st1] tr] asked]|] eqn:E.
  - discriminate.
  - exfalso. exact (main_loop_fuel json_loads net (S (List.length rest)) _ rest [] [] ltac:(lia) E).
Qed.

Definition asked_ok (inputs : list string) (q : string) : Prop :=
  q <> "" /\ py_lower q <> "exit" /\ py_lower q <> "switch"
  /\ exists line, In line inputs /\ py_strip line = q.

Lemma eqb_false_neq : forall a b, String.eqb a b = false -> a <> b.
Proof. intros a b H Heq. subst. rewrite String.eqb_refl in H. discriminate. Qed.

Lemma main_loop_asked : forall json_loads net inputs0 fuel st inputs tr asked status st' tr' asked',
  (forall q, In q asked -> asked_ok inputs0 q) ->
  (forall l, In l inputs -> In l inputs0) ->
  main_loop json_loads net fuel st inputs tr asked = Some (status, st', tr', asked') ->
  forall q, In q asked' -> asked_ok inputs0 q.
Proof.
  intros json_loads net inputs0 fuel. induction fuel as [|fuel IH];
    intros st inputs tr asked status st' tr' asked' Hasked Hin H; simpl in H; [discriminate|].
  destruct inputs as [|line rest]; [injection H as _ _ _ <-; exact Hasked|].
  destruct (String.eqb (py_lower (py_strip line)) "exit") eqn:E1; [injection H as _ _ _ <-; exact Hasked|].
  destruct (String.eqb (py_lower (py_strip line)) "switch") eqn:E2.
  - destruct (api_switch st rest) as [| |st1 rest1] eqn:E;
      try (injection H as _ _ _ <-; exact Hasked).
    destruct (api_switch_rest _ _ _ _ E) as [_ [Hr _]].
    exact (IH st1 rest1 tr asked status st' tr' asked' Hasked ltac:(intros l Hl; apply Hin; simpl; auto) H).
  - destruct (String.eqb (py_strip line) "") eqn:E3.
    + exact (IH st rest tr asked status st' tr' asked' Hasked ltac:(intros l Hl; apply Hin; simpl; auto) H).
    + assert (Hq : forall q, In q (asked ++ [py_strip line])%list -> asked_ok inputs0 q).
      { intros q Hq. apply in_app_or in Hq. destruct Hq as [Hq|[<-|[]]]; [auto|].
        split; [exact (eqb_false_neq _ _ E3)|]. split; [exact (eqb_false_neq _ _ E1)|].
        split; [exact (eqb_false_neq _ _ E2)|]. exists line. split; [apply Hin; simpl; auto | reflexivity]. }
      destruct (process_query json_loads net st (py_strip line) tr) as [[answer st1] tr1].
      destruct (op_loop st1 rest) as [| |st2 rest2] eqn:E.
      * exact (IH st1 [] tr1 _ status st' tr' asked' Hq ltac:(intros l []) H).
      * injection H as _ _ _ <-. exact Hq.
      * destruct (op_loop_rest _ _ _ _ E) as [_ [Hr _]].
        exact (IH st2 rest2 tr1 _ status st' tr' asked' Hq ltac:(intros l Hl; apply Hin; simpl; auto) H).
Qed.

(** Every query [main] hands to the agent is a typed line with its
    surrounding whitespace stripped, non-empty, and neither ["exit"] nor
    ["switch"] in any letter case. *)
Theorem main_asked_queries : forall json_loads net openai_ok inputs status sto tr asked,
  main json_loads net openai_ok inputs = Some (status, sto, tr, asked) ->
  forall q, In q asked ->
  q <> "" /\ py_lower q <> "exit" /\ py_lower q <> "switch"
  /\ exists line, In line inputs /\ py_strip line = q.
Proof.
  intros json_loads net openai_ok inputs status sto tr asked H. unfold main in H.
  destruct (LLMAdapter_init openai_ok load_config) as [st|e]; [|injection H as _ _ _ <-; intros q []].
  destruct (show_menu _ _ inputs) as [[c rest]|] eqn:Em; [|injection H as _ _ _ <-; intros q []].
  destruct (String.eqb c "exit"); [injection H as _ _ _ <-; intros q []|].
  destruct (main_loop json_loads net (S (List.length rest)) _ rest [] []) as [[[[s st1] tr1] asked1]|]
    eqn:E; [|discriminate].
  injection H as _ _ _ <-. unfold show_menu in Em.
  destruct (read_choice_rest _ _ _ _ Em) as [_ Hr].
  exact (main_loop_asked json_loads net inputs _ _ rest [] [] _ _ _ _ ltac:(intros q []) Hr E).
Qed.

Lemma main_asked_queries_witness :
  main json_decode (stub "Sunny." "Sunny.") true ["3"; "  weather? "; "exit"] =
    Some (Exit0, Some both_on, [Request DeepSeek], ["weather?"])
  /\ ("weather?" <> "" /\ py_lower "weather?" <> "exit" /\ py_lower "weather?" <> "switch"
      /\ exists line, In line ["3"; "  weather? "; "exit"] /\ py_strip line = "weather?").
Proof.
  assert (H : main json_decode (stub "Sunny." "Sunny.") true ["3"; "  weather? "; "exit"] =
    Some (Exit0, Some both_on, [Request DeepSeek], ["weather?"])) by (vm_compute; reflexivity).
  split; [exact H|].
  exact (main_asked_queries json_decode (stub "Sunny." "Sunny.") true _ _ _ _ _ H "weather?"
           ltac:(simpl; auto)).
Defined.

Lemma process_query_reachable : forall json_loads net st q tr,
  reachable st -> reachable (snd (fst (process_query json_loads net st q tr))).
Proof.
  intros json_loads net st q tr Hr. unfold process_query, process_query_body.
  pose proof (reach_call net st [user_message (build_function_calling_prompt q FUNCTION_DESCRIPTIONS)] tr Hr)
    as H1.
  destruct (call_llm net st _ tr) as [[[r|e] st1] tr1]; simpl in H1 |- *; [|exact H1].
  destruct (parse_function_call json_loads r) as [fc|]; [|exact H1].
  destruct (json_truthy fc); [|exact H1].
  destruct (execute_function fc tr1) as [[res|e] tr2]; [|exact H1].
  pose proof (reach_call net st1 [user_message (follow_up_prompt q fc res)] tr2 H1) as H2.
  destruct (call_llm net st1 _ tr2) as [[[r2|e2] st2] tr3]; exact H2.
Qed.

Lemma main_loop_reachable : forall json_loads net fuel st inputs tr asked status st' tr' asked',
  reachable st ->
  main_loop json_loads net fuel st inputs tr asked = Some (status, st', tr', asked') ->
  reachable st'.
Proof.
  intros json_loads net fuel. induction fuel as [|fuel IH];
    intros st inputs tr asked status st' tr' asked' Hr H; simpl in H; [discriminate|].
  destruct inputs as [|line rest]; [injection H as _ <- _ _; exact Hr|].
  destruct (String.eqb (py_lower (py_strip line)) "exit"); [injection H as _ <- _ _; exact Hr|].
  destruct (String.eqb (py_lower (py_strip line)) "switch").
  - destruct (api_switch st rest) as [| |st1 rest1] eqn:E; try (injection H as _ <- _ _; exact Hr).
    destruct (api_switch_rest _ _ _ _ E) as [_ [_ [name ->]]].
    exact (IH _ _ _ _ _ _ _ _ (reach_set st name Hr) H).
  - destruct (String.eqb (py_strip line) ""); [exact (IH _ _ _ _ _ _ _ _ Hr H)|].
    pose proof (process_query_reachable json_loads net st (py_strip line) tr Hr) as Hp.
    destruct (process_query json_loads net st (py_strip line) tr) as [[answer st1] tr1].
    simpl in Hp. destruct (op_loop st1 rest) as [| |st2 rest2] eqn:E.
    + exact (IH _ _ _ _ _ _ _ _ Hp H).
    + injection H as _ <- _ _. exact Hp.
    + destruct (op_loop_rest _ _ _ _ E) as [_ [_ [->|[name ->]]]].
      * exact (IH _ _ _ _ _ _ _ _ Hp H).
      * exact (IH _ _ _ _ _ _ _ _ (reach_set st1 name Hp) H).
Qed.

(** Whatever is typed and whatever the backends answer, the adapter
    [main] ends with is reachable from construction through [set_api] and
    [call_llm], so its selection names an available provider unless both
    flags are cleared. *)
Theorem main_final_adapter : forall json_loads net openai_ok inputs status st tr asked,
  main json_loads net openai_ok inputs = Some (status, Some st, tr, asked) ->
  reachable st /\ selection_invariant st = true.
Proof.
  intros json_loads net openai_ok inputs status st tr asked H. unfold main in H.
  destruct (LLMAdapter_init openai_ok load_config) as [st0|e] eqn:Ei; [|discriminate].
  pose proof (reach_init openai_ok load_config st0 Ei) as H0.
  assert (Hr : reachable st).
  { destruct (show_menu _ _ inputs) as [[c rest]|]; [|injection H as _ <- _ _; exact H0].
    destruct (String.eqb c "exit"); [injection H as _ <- _ _; exact H0|].
    destruct (main_loop json_loads net (S (List.length rest)) _ rest [] []) as [[[[s st1] tr1] asked1]|]
      eqn:E; [|discriminate].
    injection H as _ <- _ _.
    destruct (apply_menu_choice_set_api st0 c) as [name Hn]. rewrite Hn in E.
    exact (main_loop_reachable json_loads net _ _ _ _ _ _ _ _ _ (reach_set st0 name H0) E). }
  split; [exact Hr | exact (reachable_invariant st Hr)].
Qed.

Lemma main_final_adapter_witness :
  main json_decode rate_limited_deepseek true ["3"; "weather?"; "exit"] =
    Some (Exit0, Some (mkAdapter load_config "qwen" false true),
          [Request DeepSeek; Sleep 1; Request DeepSeek; Request Qwen], ["weather?"])
  /\ selection_invariant (mkAdapter load_config "qwen" false true) = true.
Proof.
  assert (H : main json_decode rate_limited_deepseek true ["3"; "weather?"; "exit"] =
    Some (Exit0, Some (mkAdapter load_config "qwen" false true),
          [Request DeepSeek; Sleep 1; Request DeepSeek; Request Qwen], ["weather?"]))
    by (vm_compute; reflexivity).
  split; [exact H|]. exact (proj2 (main_final_adapter _ _ _ _ _ _ _ _ H)).
Defined.

(* ------------------------------------------------------------------ *)
(** ** Properties of the prompts and of [process_query] *)

Lemma str_app_assoc : forall a b c : string, ((a ++ b) ++ c) = (a ++ (b ++ c)).
Proof. induction a as [|x a IH]; intros b c; simpl; [reflexivity|]. rewrite IH. reflexivity. Qed.

Lemma py_in_starts : forall sub s, starts_with sub s = true -> py_in sub s = true.
Proof. intros sub [|c s] H; simpl; rewrite H; reflexivity. Qed.

Lemma py_in_prefix : forall sub t, py_in sub (sub ++ t) = true.
Proof. intros sub t. apply py_in_starts, starts_with_self. Qed.

Lemma py_in_app_r : forall sub s t, py_in sub t = true -> py_in sub (s ++ t) = true.
Proof.
  intros sub s t H. induction s as [|c s IH]; simpl; [exact H|]. rewrite IH. apply orb_true_r.
Qed.

Lemma py_in_app_l : forall sub s t, py_in sub s = true -> py_in sub (s ++ t) = true.
Proof.
  intros sub s t H. induction s as [|c s IH].
  - destruct sub; [apply py_in_starts; reflexivity | discriminate].
  - simpl in H |- *. apply orb_true_iff in H. destruct H as [H|H].
    + pose proof (starts_with_app sub (String c s) t H) as H'. simpl in H'. rewrite H'.
      reflexivity.
    + rewrite IH by exact H. apply orb_true_r.
Qed.

Lemma starts_with_app_same : forall a u v, starts_with (a ++ u) (a ++ v) = starts_with u v.
Proof. induction a as [|c a IH]; intros u v; simpl; [reflexivity|]. rewrite Ascii.eqb_refl. apply IH. Qed.

Lemma function_desc_keeps : forall x fs acc,
  py_in x acc = true ->
  py_in x (fold_left (fun acc func =>
                 acc ++ "- " ++ json_field_str "name" func ++ ": "
                     ++ json_field_str "description" func ++ nl
                     ++ "参数: " ++ json_dumps (json_field "parameters" func) ++ nl) fs acc) = true.
Proof.
  intros x fs. induction fs as [|f fs IH]; intros acc H; simpl; [exact H|].
  apply IH, py_in_app_l, H.
Qed.

Lemma function_desc_lists : forall f fs acc,
  In f fs ->
  py_in ("- " ++ json_field_str "name" f ++ ": " ++ json_field_str "description" f)
    (fold_left (fun acc func =>
                 acc ++ "- " ++ json_field_str "name" func ++ ": "
                     ++ json_field_str "description" func ++ nl
                     ++ "参数: " ++ json_dumps (json_field "parameters" func) ++ nl) fs acc) = true.
Proof.
  intros f fs. induction fs as [|g fs IH]; intros acc Hin; [destruct Hin|].
  destruct Hin as [<-|Hin]; cbn [fold_left]; [|apply IH, Hin].
  apply function_desc_keeps, py_in_app_r, py_in_starts.
  rewrite !starts_with_app_same. apply starts_with_self.
Qed.

(** The prompt [_build_function_calling_prompt] sends contains the user's
    request, a line [- name: description] for every function of the
    list, and the [FUNCTION_CALL:] marker the parser looks for. *)
Theorem function_calling_prompt_contents : forall user_query functions,
  py_in user_query (build_function_calling_prompt user_query functions) = true
  /\ py_in marker (build_function_calling_prompt user_query functions) = true
  /\ (forall f, In f functions ->
      py_in ("- " ++ json_field_str "name" f ++ ": " ++ json_field_str "description" f)
        (build_function_calling_prompt user_query functions) = true).
Proof.
  intros user_query functions. unfold build_function_calling_prompt. split; [|split].
  - do 4 apply py_in_app_r. apply py_in_prefix.
  - do 4 apply py_in_app_r. apply py_in_app_r. do 4 apply py_in_app_r.
    apply py_in_app_l. vm_compute. reflexivity.
  - intros f Hin. apply py_in_app_l, function_desc_lists, Hin.
Qed.

(** The follow-up prompt of [process_query] carries the user's request,
    the function call (as [json.dumps]) and the function's result. *)
Theorem follow_up_prompt_contents : forall user_query function_call function_result,
  py_in user_query (follow_up_prompt user_query function_call function_result) = true
  /\ py_in (json_dumps function_call) (follow_up_prompt user_query function_call function_result) = true
  /\ py_in function_result (follow_up_prompt user_query function_call function_result) = true.
Proof.
  intros q fc r. unfold follow_up_prompt. split; [|split].
  - do 3 apply py_in_app_r. apply py_in_prefix.
  - do 6 apply py_in_app_r. apply py_in_prefix.
  - do 9 apply py_in_app_r. apply py_in_prefix.
Qed.

Lemma count_requests_none : forall x, existsb is_request x = false -> count_requests x = 0.
Proof.
  intros x H. induction x as [|ev x IH]; [reflexivity|]. simpl in H.
  apply orb_false_iff in H. destruct H as [Hev Hx]. unfold count_requests in *. simpl.
  rewrite Hev. apply IH, Hx.
Qed.

(** One query sends at most [4 * max_retries] requests: at most two
    [call_llm] calls (the first answer and, after a function call, the
    follow-up), each with at most [2 * max_retries]; executing the
    function sends none. *)
Theorem process_query_request_bound : forall json_loads net st q tr,
  exists suffix, snd (process_query json_loads net st q tr) = (tr ++ suffix)%list
                 /\ count_requests suffix <= 4 * Z.to_nat (max_retries (config st)).
Proof.
  intros json_loads net st q tr. unfold process_query, process_query_body.
  set (msgs := [user_message (build_function_calling_prompt q FUNCTION_DESCRIPTIONS)]).
  destruct (call_llm_requests net st msgs tr) as [s1 [H1 C1]].
  destruct (call_llm_never_enables_one net st msgs tr) as [Hc _].
  destruct (call_llm net st msgs tr) as [[[r|e] st1] tr1]; simpl in H1, Hc; subst tr1;
    [|exists s1; split; [reflexivity | lia]].
  destruct (parse_function_call json_loads r) as [fc|]; [|exists s1; split; [reflexivity | lia]].
  destruct (json_truthy fc); [|exists s1; split; [reflexivity | lia]].
  destruct (execute_function_trace fc (tr ++ s1)%list) as [x [Hx [_ Hreq]]].
  pose proof (count_requests_none x Hreq) as Cx.
  destruct (execute_function fc (tr ++ s1)%list) as [[res|e] tr2]; simpl in Hx; subst tr2.
  - set (msgs2 := [user_message (follow_up_prompt q fc res)]).
    destruct (call_llm_requests net st1 msgs2 ((tr ++ s1) ++ x)%list) as [s2 [H2 C2]].
    rewrite Hc in C2.
    destruct (call_llm net st1 msgs2 ((tr ++ s1) ++ x)%list) as [[[r2|e2] st2] tr3];
      simpl in H2 |- *; subst tr3; exists (s1 ++ x ++ s2)%list; rewrite <- !app_assoc;
      (split; [reflexivity|]); rewrite !count_requests_app; lia.
  - exists (s1 ++ x)%list. rewrite app_assoc. split; [reflexivity|].
    rewrite count_requests_app. lia.
Qed.

(** One [call_llm] sends at most [2 * max_retries] requests: the
    selected provider's attempts plus, after a rate-limit failure, the
    attempts of the other provider; it never tries a third time.  It only
    appends to the trace. *)
Theorem call_llm_request_bound : forall net st msgs tr,
  exists suffix, snd (call_llm net st msgs tr) = (tr ++ suffix)%list
                 /\ count_requests suffix <= 2 * Z.to_nat (max_retries (config st)).
Proof. intros net st msgs tr. exact (call_llm_requests net st msgs tr). Qed.

(** A provider client sends at most [max_retries] requests (none when
    [max_retries <= 0]) and only appends to the trace. *)
Theorem call_api_request_bound : forall net p cfg msgs tr,
  exists suffix, snd (call_api net p cfg msgs tr) = (tr ++ suffix)%list
                 /\ count_requests suffix <= Z.to_nat (max_retries cfg).
Proof. intros net p cfg msgs tr. exact (call_api_requests net p cfg msgs tr). Qed.

(** When the model's first answer holds no truthy function call (no
    [FUNCTION_CALL:] marker, an undecodable payload, or a falsy value
    such as [{}] or [0]), [process_query] returns that answer as it is,
    after a single [call_llm]. *)
Theorem process_query_plain_answer : forall json_loads net st q tr r st1 tr1,
  call_llm net st [user_message (build_function_calling_prompt q FUNCTION_DESCRIPTIONS)] tr
    = (Ok r, st1, tr1) ->
  opt_truthy (parse_function_call json_loads r) = false ->
  process_query json_loads net st q tr = (r, st1, tr1).
Proof.
  intros json_loads net st q tr r st1 tr1 H Ht. unfold process_query, process_query_body.
  rewrite H. destruct (parse_function_call json_loads r) as [fc|]; [|reflexivity].
  simpl in Ht. rewrite Ht. reflexivity.
Qed.

Lemma process_query_plain_answer_witness :
  call_llm (stub "FUNCTION_CALL: {}" "Sunny.") both_on
    [user_message (build_function_calling_prompt "weather?" FUNCTION_DESCRIPTIONS)] []
    = (Ok "FUNCTION_CALL: {}", both_on, [Request DeepSeek])
  /\ opt_truthy (parse_function_call json_decode "FUNCTION_CALL: {}") = false
  /\ process_query json_decode (stub "FUNCTION_CALL: {}" "Sunny.") both_on "weather?" []
     = ("FUNCTION_CALL: {}", both_on, [Request DeepSeek]).
Proof.
  assert (H1 : call_llm (stub "FUNCTION_CALL: {}" "Sunny.") both_on
    [user_message (build_function_calling_prompt "weather?" FUNCTION_DESCRIPTIONS)] []
    = (Ok "FUNCTION_CALL: {}", both_on, [Request DeepSeek])) by (vm_compute; reflexivity).
  assert (H2 : opt_truthy (parse_function_call json_decode "FUNCTION_CALL: {}") = false)
    by (vm_compute; reflexivity).
  split; [exact H1|]. split; [exact H2|].
  exact (process_query_plain_answer json_decode _ both_on "weather?" [] _ _ _ H1 H2).
Defined.
